(** * e-sign: envelopes, signers and signing links

    A shallow embedding of the multi-signer server (the express application
    with the [signers] array in its envelope schema) and of the [sendMail]
    helper it calls, followed by the properties of the recipient parser, the
    token middleware and the envelope state machine.

    Conventions of the embedding.
    - A JavaScript string is a [string] whose characters are its code
      units, read as U+0000 to U+00FF: the embedding covers the texts made of
      these code units, and on them its string primitives are those of
      JavaScript.  [\s] and [trim] see tab, line feed, vertical tab, form
      feed, carriage return, space and the no-break space U+00A0; [.] leaves
      out line feed and carriage return; [toLowerCase] maps A-Z and the
      capital letters U+00C0 to U+00DE, the multiplication sign U+00D7
      apart, to the letter 32 places further.
    - A value of [JSON.parse] is kept with what the server can observe of
      it: a number as the text [String] prints for it, an object as the list
      of its own properties.
    - [new Date()] and the clock of [jwt.verify] are an explicit [now : Z].
    - The Mongo collection is a finite map from envelope ids to envelopes;
      reads and writes of the token routes are taken as reliable, the two
      writes of the creation route may fail.
    - What the file system, the template engine and the mail provider answer
      is read from a [World] record. *)

From Stdlib Require Import ZArith Ascii String.
From stdpp Require Import base option list gmap strings.

Local Open Scope Z_scope.

(* ================================================================== *)
(** * Part I: definitions *)
(* ================================================================== *)

(** ** JavaScript string primitives used by the server *)

Module JS.

(** [\s] of a regular expression, and the characters [trim] strips: the
    white space and the line terminators of the language.  Up to U+00FF
    these are the codes 9 to 13, the space and the no-break space
    (code 160). *)
Definition is_space (c : ascii) : bool :=
  match c with
  | "009" | "010" | "011" | "012" | "013" | " " | "160" => true
  | _ => false
  end%char.

(** Line terminators, the characters [.] does not match: up to U+00FF,
    line feed and carriage return. *)
Definition is_line_terminator (c : ascii) : bool :=
  match c with
  | "010" | "013" => true
  | _ => false
  end%char.

Fixpoint trimStart (s : string) : string :=
  match s with
  | EmptyString => EmptyString
  | String c r => if is_space c then trimStart r else s
  end.

Fixpoint trimEnd (s : string) : string :=
  match s with
  | EmptyString => EmptyString
  | String c r =>
      match trimEnd r with
      | EmptyString => if is_space c then EmptyString else String c EmptyString
      | r' => String c r'
      end
  end.

(** [s.trim()] *)
Definition trim (s : string) : string := trimEnd (trimStart s).

(** The lower case of a code unit: the capital letters are A-Z (codes 65
    to 90) and, from U+00C0 to U+00DE (codes 192 to 222), all but the
    multiplication sign (code 215); each has its small letter 32 places
    further, and no other code unit up to U+00FF changes. *)
Definition is_capital (c : ascii) : bool :=
  let n := nat_of_ascii c in
  ((65 <=? n) && (n <=? 90) || (192 <=? n) && (n <=? 222) && negb (n =? 215))%nat.

Definition lower_char (c : ascii) : ascii :=
  if is_capital c then ascii_of_nat (nat_of_ascii c + 32) else c.

(** [s.toLowerCase()] *)
Fixpoint toLowerCase (s : string) : string :=
  match s with
  | EmptyString => EmptyString
  | String c r => String (lower_char c) (toLowerCase r)
  end.

(** [s.split] on one or more characters of a class [sep]: the pieces between the
    maximal runs of separators; a run at either end leaves an empty piece
    there, and the empty string splits into one empty piece.  [cur] is the
    piece being read, reversed; [in_run] says the previous character was a
    separator. *)
Fixpoint split_go (sep : ascii -> bool) (cur : string) (in_run : bool)
    (s : string) : list string :=
  match s with
  | EmptyString => [String.rev cur]
  | String c r =>
      if sep c then
        if in_run then split_go sep EmptyString true r
        else String.rev cur :: split_go sep EmptyString true r
      else split_go sep (String c cur) false r
  end.

Definition split (sep : ascii -> bool) (s : string) : list string :=
  split_go sep EmptyString false s.

(** The truthiness of a string: [Boolean(s)]. *)
Definition nonempty (s : string) : bool :=
  match s with
  | EmptyString => false
  | String _ _ => true
  end.

Fixpoint string_forall (p : ascii -> bool) (s : string) : bool :=
  match s with
  | EmptyString => true
  | String c r => p c && string_forall p r
  end.

(** [s.replace] of a double quote (code 34) at the start and of one at the
    end by nothing (global flag): a quote at the start goes, and a quote at
    the end of what follows it goes. *)
Fixpoint drop_last_quote (s : string) : string :=
  match s with
  | EmptyString => EmptyString
  | String c EmptyString => if Ascii.eqb c "034" then EmptyString else s
  | String c r => String c (drop_last_quote r)
  end.

Definition strip_quotes (s : string) : string :=
  match s with
  | String "034"%char r => drop_last_quote r
  | _ => drop_last_quote s
  end.

End JS.

(** ** Values of [JSON.parse] *)

(** A number is kept as the text [String] prints for it ([1e21] prints as
    [1e+21], and both zeros print as [0]); an object is the list of its own
    properties, in which a key is looked up from the front. *)
#[local] Unset Elimination Schemes.
Inductive JSON : Type :=
  | JNull
  | JBool (b : bool)
  | JNumber (printed : string)
  | JString (s : string)
  | JArray (items : list JSON)
  | JObject (fields : list (string * JSON)).
#[local] Set Elimination Schemes.

(** [Boolean(v)]: of the numbers only zero is falsy, which prints as
    [0]. *)
Definition truthy (v : JSON) : bool :=
  match v with
  | JNull => false
  | JBool b => b
  | JNumber printed => negb (String.eqb printed "0")
  | JString s => JS.nonempty s
  | JArray _ | JObject _ => true
  end.

Fixpoint join (sep : string) (l : list string) : string :=
  match l with
  | [] => EmptyString
  | [s] => s
  | s :: r => s +:+ sep +:+ join sep r
  end.

(** [v.key] on a parsed object: [None] is [undefined]. *)
Fixpoint get (key : string) (fields : list (string * JSON)) : option JSON :=
  match fields with
  | [] => None
  | (k, v) :: r => if String.eqb k key then Some v else get key r
  end.

(** All the values of a list of results, or [None] when one of them is
    [None]. *)
Fixpoint all_of {A : Type} (l : list (option A)) : option (list A) :=
  match l with
  | [] => Some []
  | None :: _ => None
  | Some x :: r => cons x <$> all_of r
  end.

(** [String(v)], as a template literal prints a value; [None] when the
    conversion throws.  An array prints its items joined by commas, [null]
    items as nothing.  An object prints as [[object Object]] through the
    [toString] it inherits, which the conversion tries first, so that an own
    property [valueOf] changes nothing; an object with an own property
    [toString] has lost the inherited one, a parsed value is never callable,
    [valueOf] gives back the object, and the conversion throws a
    [TypeError]. *)
Fixpoint toString (v : JSON) : option string :=
  match v with
  | JNull => Some "null"
  | JBool true => Some "true"
  | JBool false => Some "false"
  | JNumber printed => Some printed
  | JString s => Some s
  | JArray items =>
      join "," <$>
        all_of (map (fun x => match x with JNull => Some EmptyString | _ => toString x end)
                  items)
  | JObject fields =>
      match get "toString" fields with
      | Some _ => None
      | None => Some "[object Object]"
      end
  end.

(** The text of a form field, as [JSON.parse] classifies it: text that
    parses, with the value it parses to, or text on which [JSON.parse]
    throws.  A field that is absent behaves as the empty text:
    [JSON.parse(undefined)] throws and [String(undefined || "")] is
    empty. *)
Inductive FieldText : Type :=
  | JsonText (text : string) (v : JSON)
  | PlainText (s : string).

(** ** The recipient parser *)

Record Recipient : Type := mkRecipient { rcp_email : string; rcp_name : string }.

(** [emailRegex]: one or more characters that are neither white space nor
    [@], then [@], then the same again, a dot, and the same again up to the
    end of the text. *)
Definition email_char (c : ascii) : bool :=
  negb (JS.is_space c || Ascii.eqb c "@").

(** The part after [@]; [seen] says a character was read before this one. *)
Fixpoint domain_test (seen : bool) (s : string) : bool :=
  match s with
  | EmptyString => false
  | String c r =>
      email_char c &&
      ((Ascii.eqb c "." && seen && JS.nonempty r && JS.string_forall email_char r)
       || domain_test true r)
  end.

(** The part up to [@], and then the domain. *)
Fixpoint local_test (seen : bool) (s : string) : bool :=
  match s with
  | EmptyString => false
  | String c r =>
      if Ascii.eqb c "@" then seen && domain_test false r
      else negb (JS.is_space c) && local_test true r
  end.

Definition emailRegex_test (s : string) : bool := local_test false s.

(** The rest of an entry after its [<]: characters other than [>], then
    one [>] that ends the text. *)
Fixpoint until_close (s : string) : option string :=
  match s with
  | EmptyString => None
  | String c r =>
      if Ascii.eqb c ">" then
        match r with EmptyString => Some EmptyString | _ => None end
      else String c <$> until_close r
  end.

Definition angle_tail (s : string) : option string :=
  match until_close s with
  | Some EmptyString => None
  | o => o
  end.

(** [raw.match] with the pattern for [Name <email>]: any characters but
    line terminators, as many as possible, then [<], then one or more
    characters other than [>], then [>] at the end of the text.  The result
    is the pair of the two groups.  The first group is greedy, so a later [<]
    is tried before an earlier one. *)
Fixpoint match_angle (s : string) : option (string * string) :=
  match s with
  | EmptyString => None
  | String c r =>
      let later :=
        if JS.is_line_terminator c then None
        else (fun '(pre, mid) => (String c pre, mid)) <$> match_angle r in
      match later with
      | Some m => Some m
      | None => if Ascii.eqb c "<" then (fun mid => (EmptyString, mid)) <$> angle_tail r else None
      end
  end.

(** [v || ""] inside a template literal, [v] possibly [undefined];
    [None] when printing it throws. *)
Definition or_empty (v : option JSON) : option string :=
  match v with
  | Some n => if truthy n then toString n else Some EmptyString
  | None => Some EmptyString
  end.

(** The callback of [parsed.map]: [None] when it throws, [Some None] for
    its [null].  The template literal prints the name, then the email. *)
Definition entry_of (v : JSON) : option (option string) :=
  match v with
  | JString s => Some (Some s)
  | JObject fields =>
      match get "email" fields with
      | Some e =>
          if truthy e then
            match or_empty (get "name" fields), toString e with
            | Some nm, Some em => Some (Some (nm +:+ " <" +:+ em +:+ ">"))
            | _, _ => None
            end
          else Some None
      | None => Some None
      end
  | _ => Some None
  end.

(** [parsed.map(...).filter(Boolean)]: the entries of an array, without
    the [null] and the empty ones; [None] when the callback throws. *)
Definition array_entries (items : list JSON) : option (list string) :=
  match all_of (map entry_of items) with
  | Some l => Some (filter (fun s => JS.nonempty s = true) (omap id l))
  | None => None
  end.

Definition recipient_sep (c : ascii) : bool :=
  match c with
  | "010" | "," | ";" => true
  | _ => false
  end%char.

(** The [list] of [parseRecipients]: the entries of a JSON array, nothing
    for another JSON value, the pieces of any other text.  The callback runs
    inside the [try], so when it throws the [catch] splits the text of the
    field, as it does for text that is not JSON. *)
Definition recipient_list (input : FieldText) : list string :=
  match input with
  | JsonText text (JArray items) =>
      match array_entries items with
      | Some l => l
      | None => JS.split recipient_sep text
      end
  | JsonText _ _ => []
  | PlainText s => JS.split recipient_sep s
  end.

(** One turn of the loop up to the [Map]: the recipient an entry stands for,
    or [None] where the loop says [continue]. *)
Definition read_entry (raw : string) : option Recipient :=
  let raw := JS.trim raw in
  if JS.nonempty raw then
    let '(recName, recEmail) :=
      match match_angle raw with
      | Some (pre, mid) => (JS.strip_quotes (JS.trim pre), JS.trim mid)
      | None => (EmptyString, raw)
      end in
    let recEmail := JS.toLowerCase recEmail in
    if emailRegex_test recEmail then Some (mkRecipient recEmail recName) else None
  else None.

(** The [Map] [uniq], in insertion order. *)
Definition uniq_has (k : string) (uniq : list (string * Recipient)) : bool :=
  existsb (fun kv => String.eqb kv.1 k) uniq.

Fixpoint uniq_set (k : string) (v : Recipient) (uniq : list (string * Recipient))
    : list (string * Recipient) :=
  match uniq with
  | [] => [(k, v)]
  | (k', v') :: r => if String.eqb k' k then (k', v) :: r else (k', v') :: uniq_set k v r
  end.

Definition loop_body (uniq : list (string * Recipient)) (raw : string)
    : list (string * Recipient) :=
  match read_entry raw with
  | None => uniq
  | Some r => if uniq_has (rcp_email r) uniq then uniq else uniq_set (rcp_email r) r uniq
  end.

Definition parseRecipients (input : FieldText) : list Recipient :=
  map snd (fold_left loop_body (recipient_list input) []).

(** ** The data model *)

(** Modelled from the spec: [contance.js], which exports [SIGN_EVENTS], is
    not among the sources; the schema lists its five members, taken here as
    five distinct values. *)
Inductive SIGN_EVENTS : Type := PENDING | SENT | DELIVERED | COMPLETED | VOIDED.

#[global] Instance SIGN_EVENTS_eq_dec : EqDecision SIGN_EVENTS.
Proof. solve_decision. Defined.

(** *** Tokens of the [jsonwebtoken] package

    A token is kept as what it encodes: the payload, the issue time, the
    expiry time when [expiresIn] was given, and the secret whose signature it
    carries.  Times of a token are in seconds, the clock is in
    milliseconds. *)
Record Payload : Type := mkPayload {
  tok_envId : option nat;
  tok__id : option nat;
  tok_email : option string;
  tok_i : option Z
}.

Record JWT : Type := mkJWT {
  jwt_payload : Payload;
  jwt_iat : Z;
  jwt_exp : option Z;
  jwt_signed_with : string
}.

(** What a client can put in the [:token] place of a route: text that does
    not decode, or the encoding of a token. *)
Inductive TokenText : Type :=
  | Unreadable
  | Encoded (t : JWT).

(** [jwt.sign(payload, secret, options)]; [expiresIn] is [None] when no
    options are passed. *)
Definition jwt_sign (p : Payload) (secret : string) (expiresIn : option Z)
    (now : Z) : JWT :=
  let iat := now / 1000 in
  mkJWT p iat ((fun d => iat + d) <$> expiresIn) secret.

Inductive VerifyError : Type := JsonWebTokenError | TokenExpiredError.

(** [jwt.verify(token, secret, callback)]: the signature is checked first,
    then the expiry of a token that has one. *)
Definition jwt_verify (token : TokenText) (secret : string) (now : Z)
    : VerifyError + JWT :=
  match token with
  | Unreadable => inl JsonWebTokenError
  | Encoded t =>
      if String.eqb (jwt_signed_with t) secret then
        match jwt_exp t with
        | Some e => if now / 1000 >=? e then inl TokenExpiredError else inr t
        | None => inr t
        end
      else inl JsonWebTokenError
  end.

(** *** Envelopes *)

(** A signing link [BASE_URL/sign/token], or the empty string. *)
Inductive Link : Type :=
  | NoLink
  | SignLink (base : string) (token : JWT).

Record OriginalFile : Type := mkFile {
  filename : string;
  storedName : string;
  publicUrl : string;
  mimetype : string
}.

(** [signerSchema]; the link of a signer is [signerUrl], the name the
    creation route gives it ([signedUrl] is the envelope's field below). *)
Record Signer : Type := mkSigner {
  email : string;
  name : string;
  status : SIGN_EVENTS;
  sentAt : option Z;
  deliveredAt : option Z;
  completedAt : option Z;
  signerUrl : Link
}.

(** [envelopeSchema] *)
Record Envelope : Type := mkEnvelope {
  signers : list Signer;
  documentStatus : SIGN_EVENTS;
  files : list OriginalFile;
  pdf : string;
  signedPdf : string;
  signedUrl : Link
}.

Abbreviation Store := (gmap nat Envelope).

(** [Envelope.findById(id)]; an id that is [undefined] finds nothing. *)
Definition findById (id : option nat) (st : Store) : option Envelope :=
  id ≫= fun k => st !! k.

(** *** Requests and responses *)

Inductive Upload : Type :=
  | NoFile
  | NotPdf
  | PdfFile (stored : string).

Record SignerReport : Type := mkSignerReport {
  rep_email : string;
  rep_name : string;
  rep_status : SIGN_EVENTS;
  rep_sentAt : option Z;
  rep_signedUrl : Link
}.

Record SignerView : Type := mkSignerView {
  view_index : Z;
  view_email : string;
  view_name : string;
  view_status : SIGN_EVENTS;
  view_sentAt : option Z;
  view_deliveredAt : option Z;
  view_completedAt : option Z
}.

Inductive Body : Type :=
  | ErrorBody (error : string)
  | TextBody (text : string)
  | PageBody (file : string)
  | CreatedBody (envelopeId : nat) (envelopeSignUrl : Link)
      (docStatus : SIGN_EVENTS) (fileList : list (string * string * string))
      (signerList : list SignerReport)
  | ViewBody (envelopeId : nat) (docStatus : SIGN_EVENTS) (signer : SignerView)
      (fileList : list (string * string))
  | CompletedBody (downloadUrl : string) (envelopeId : nat) (signerIndex : Z)
      (signerEmail : string) (docStatus : SIGN_EVENTS)
  | CancelledBody (envelopeId : nat).

Record Response : Type := mkResponse { code : nat; body : Body }.

Definition json (c : nat) (b : Body) : Response := mkResponse c b.

(** What [verifyJWT] leaves on the request. *)
Record Auth : Type := mkAuth {
  req_envId : option nat;
  req_signerEmail : option string;
  req_signerIndex : option Z
}.

(** ** The envelope state machine, one envelope at a time *)

Definition delivered_or_completed (s : Signer) : bool :=
  bool_decide (status s ∈ [DELIVERED; COMPLETED]).

Definition is_completed (s : Signer) : bool :=
  bool_decide (status s = COMPLETED).

(** The body of the by-token route after the signer is found: a signer that
    is [SENT] becomes [DELIVERED], and the envelope with it once every signer
    is delivered or completed. *)
Definition mark_delivered (now : Z) (idx : nat) (env : Envelope) : Envelope :=
  match signers env !! idx with
  | Some s =>
      if bool_decide (status s = SENT) then
        let s' := mkSigner (email s) (name s) DELIVERED (sentAt s) (Some now)
                    (completedAt s) (signerUrl s) in
        let l := <[idx := s']> (signers env) in
        mkEnvelope l
          (if forallb delivered_or_completed l then DELIVERED else documentStatus env)
          (files env) (pdf env) (signedPdf env) (signedUrl env)
      else env
  | None => env
  end.

(** The body of the complete route after the signer is found. *)
Definition mark_completed (now : Z) (url : string) (idx : nat) (env : Envelope)
    : Envelope :=
  match signers env !! idx with
  | Some s =>
      let s' := mkSigner (email s) (name s) COMPLETED (sentAt s) (deliveredAt s)
                  (Some now) (signerUrl s) in
      let l := <[idx := s']> (signers env) in
      mkEnvelope l
        (if forallb is_completed l then COMPLETED else documentStatus env)
        (files env) (pdf env) url (signedUrl env)
  | None => env
  end.

(** The body of the cancel route. *)
Definition void_signer (s : Signer) : Signer :=
  mkSigner (email s) (name s) VOIDED (sentAt s) (deliveredAt s) (completedAt s)
    (signerUrl s).

Definition mark_voided (env : Envelope) : Envelope :=
  mkEnvelope (map void_signer (signers env)) VOIDED (files env) (pdf env)
    (signedPdf env) (signedUrl env).

(** [array.findIndex(p)], [-1] when nothing is found. *)
Fixpoint findIndex {A : Type} (p : A -> bool) (l : list A) : Z :=
  match l with
  | [] => -1
  | x :: r => if p x then 0 else
      let k := findIndex p r in if k <? 0 then -1 else 1 + k
  end.

(** The signer a request addresses: the index of the token when it is a
    number, else the first signer with the token's email. *)
Definition signer_index (a : Auth) (env : Envelope) : Z :=
  match req_signerIndex a with
  | Some i => i
  | None =>
      findIndex (fun s => match req_signerEmail a with
                          | Some e => String.eqb (email s) e
                          | None => false
                          end) (signers env)
  end.

Definition out_of_range (idx : Z) (env : Envelope) : bool :=
  (idx <? 0) || (idx >=? Z.of_nat (length (signers env))).

(** ** The outside of the server *)

(** A notification: the greeting name and the link of its body. *)
Record Mail : Type := mkMail { mail_subject : string; mail_name : string; mail_link : Link }.

(** What the collaborators answer during one request.
    - [tpl_exists type]: [fs.existsSync] of the template [type.html];
    - [tpl_write k type]: reading, rendering and writing the [k]-th selected
      template, which gives the name of the stored file or throws ([None]);
    - [create_ok], [save_ok]: whether [Envelope.create] and the [env.save()]
      of the creation route succeed;
    - [axios_post to mail]: the provider's answer to a send, its data or a
      rejection ([None]). *)
Record World : Type := mkWorld {
  tpl_exists : string -> bool;
  tpl_write : nat -> string -> option string;
  create_ok : bool;
  save_ok : bool;
  axios_post : string -> Mail -> option string
}.

(** [sendMail(to, subject, body)]: the data of the provider's answer, or
    the error it logs and throws again ([inl]). *)
Definition sendMail (w : World) (to : string) (m : Mail) : unit + string :=
  match axios_post w to m with
  | Some data => inr data
  | None => inl tt
  end.

(** The fields of the creation form that the route itself reads; the other
    fields only feed the template engine. *)
Record CreateRequest : Type := mkCreateRequest {
  body_templates : FieldText;
  body_emails : FieldText;
  body_name : string
}.

Definition template_sep (c : ascii) : bool :=
  Ascii.eqb c "," || JS.is_space c.

(** The names a text that is not JSON selects. *)
Definition plain_templates (s : string) : list string :=
  filter (fun x => JS.nonempty x = true) (map JS.trim (JS.split template_sep s)).

(** A text made of separators and names in turn: the separators [gap],
    then each name followed by its separators. *)
Fixpoint weave (gap : string) (rest : list (string * string)) : string :=
  match rest with
  | [] => gap
  | (nm, gap') :: r => gap +:+ nm +:+ weave gap' r
  end.

(** A text read as separators and names in turn, from its end: a separator
    joins the separators in front, another character joins the name in front
    or starts a name. *)
Fixpoint names_and_gaps (sep : ascii -> bool) (s : string)
    : string * list (string * string) :=
  match s with
  | EmptyString => (EmptyString, [])
  | String c r =>
      let '(gap, rest) := names_and_gaps sep r in
      if sep c then (String c gap, rest)
      else
        match gap, rest with
        | EmptyString, (nm, g) :: rest' => (EmptyString, (String c nm, g) :: rest')
        | _, _ => (EmptyString, (String c EmptyString, gap) :: rest)
        end
  end.

(** [selected]: [None] when it is not an array; else the items of the
    array, or the names of a text that is not JSON. *)
Definition selected_templates (templates : FieldText) : option (list JSON) :=
  match templates with
  | JsonText _ (JArray items) => Some items
  | JsonText _ _ => None
  | PlainText s => Some (map JString (plain_templates s))
  end.

(** [a || b] on strings. *)
Definition or_else (a b : string) : string := if JS.nonempty a then a else b.

Definition new_signer (now : Z) (form_name : string) (r : Recipient) : Signer :=
  mkSigner (rcp_email r) (or_else (rcp_name r) (or_else form_name EmptyString))
    SENT (Some now) None None NoLink.

Definition with_link (s : Signer) (l : Link) : Signer :=
  mkSigner (email s) (name s) (status s) (sentAt s) (deliveredAt s)
    (completedAt s) l.

Definition report_of (s : Signer) : SignerReport :=
  mkSignerReport (email s) (name s) (status s) (sentAt s) (signerUrl s).

Definition view_of (idx : Z) (s : Signer) : SignerView :=
  mkSignerView idx (email s) (name s) (status s) (sentAt s) (deliveredAt s)
    (completedAt s).

(** The callback of [signerResults.map]: the mail to one signer. *)
Definition notify (w : World) (form_name : string) (s : Signer) : unit + string :=
  sendMail w (email s)
    (mkMail "Documents ready for signature"
       (or_else (name s) (or_else form_name EmptyString)) (signerUrl s)).

(** Whether a send resolved; [Promise.all] resolves when all did. *)
Definition sent (r : unit + string) : bool :=
  match r with
  | inr _ => true
  | inl _ => false
  end.

(** ** The routes *)

Section Server.

Variable BASE_URL : string.
Variable JWT_SECRET : string.

(** [expireTime = { expiresIn: "5m" }], in seconds. *)
Definition expireTime : option Z := Some 300.

(** The middleware [verifyJWT]: a response that ends the request, or the
    fields it sets for the route. *)
Definition verifyJWT (token : option TokenText) (now : Z) : Response + Auth :=
  match token with
  | None => inl (json 401 (ErrorBody "Missing token"))
  | Some t =>
      match jwt_verify t JWT_SECRET now with
      | inl _ => inl (json 401 (ErrorBody "Invalid token"))
      | inr decoded =>
          let p := jwt_payload decoded in
          inr (mkAuth (match tok_envId p with Some x => Some x | None => tok__id p end)
                 (tok_email p) (tok_i p))
      end
  end.

(** The token the creation route signs for signer [i] of envelope [id]. *)
Definition mint (id : nat) (mail : string) (i : nat) (now : Z) : JWT :=
  jwt_sign (mkPayload (Some id) None (Some mail) (Some (Z.of_nat i))) JWT_SECRET
    None now.

(** The file pushed for a template written under [fileName]. *)
Definition pushed_file (fileName : string) : OriginalFile :=
  mkFile fileName fileName (BASE_URL +:+ "/storage/originals/" +:+ fileName) "text/html".

(** The loop over [selected]: [None] when it throws, which it does when an
    item cannot be printed into the path of its template and when reading,
    rendering or writing a template throws. *)
Fixpoint generate_files (w : World) (k : nat) (selected : list JSON)
    : option (list OriginalFile) :=
  match selected with
  | [] => Some []
  | item :: r =>
      match toString item with
      | None => None
      | Some type =>
          if tpl_exists w type then
            match tpl_write w k type with
            | None => None
            | Some fileName => cons (pushed_file fileName) <$> generate_files w (S k) r
            end
          else generate_files w (S k) r
      end
  end.

Definition generation_failed : Response := json 500 (ErrorBody "Generation failed").

(** [POST /api/generate-template] *)
Definition generate_template (w : World) (st : Store) (now : Z)
    (req : CreateRequest) : Response * Store :=
  match selected_templates (body_templates req) with
  | None | Some [] => (json 400 (ErrorBody "Select at least one template"), st)
  | Some selected =>
      match parseRecipients (body_emails req) with
      | [] => (json 400 (ErrorBody "Provide at least one valid recipient email"), st)
      | recipients =>
          match generate_files w 0 selected with
          | None => (generation_failed, st)
          | Some [] => (json 404 (ErrorBody "No templates found"), st)
          | Some fl =>
              if create_ok w then
                let id := fresh (dom st) in
                let sg := map (new_signer now (body_name req)) recipients in
                let env := mkEnvelope sg SENT fl EmptyString EmptyString NoLink in
                let sg' := imap (fun i s =>
                             with_link s (SignLink BASE_URL (mint id (email s) i now))) sg in
                let first := match sg' with s :: _ => signerUrl s | [] => NoLink end in
                let env' := mkEnvelope sg' SENT fl EmptyString EmptyString first in
                if save_ok w then
                  let st' := <[id := env']> st in
                  if forallb (fun s => sent (notify w (body_name req) s)) sg'
                  then (json 200 (CreatedBody id (signedUrl env') (documentStatus env')
                                    (map (fun f => (filename f, publicUrl f, mimetype f)) fl)
                                    (map report_of sg')), st')
                  else (generation_failed, st')
                else (generation_failed, <[id := env]> st)
              else (generation_failed, st)
          end
      end
  end.

(** The request gets through template selection, recipient parsing, file
    generation and the two writes of the store. *)
Definition stores_envelope (w : World) (req : CreateRequest) : bool :=
  match selected_templates (body_templates req) with
  | Some (t :: ts) =>
      match parseRecipients (body_emails req), generate_files w 0 (t :: ts) with
      | _ :: _, Some (_ :: _) => create_ok w && save_ok w
      | _, _ => false
      end
  | _ => false
  end.

(** [GET /api/envelopes/by-token/:token] *)
Definition get_by_token (st : Store) (now : Z) (token : option TokenText)
    : Response * Store :=
  match verifyJWT token now with
  | inl r => (r, st)
  | inr a =>
      match req_envId a, findById (req_envId a) st with
      | Some id, Some env =>
          let idx := signer_index a env in
          if out_of_range idx env then
            (json 400 (ErrorBody "Signer not found in envelope"), st)
          else
            let env' := mark_delivered now (Z.to_nat idx) env in
            match signers env' !! Z.to_nat idx with
            | Some s =>
                (json 200 (ViewBody id (documentStatus env') (view_of idx s)
                             (map (fun f => (publicUrl f, mimetype f)) (files env'))),
                 <[id := env']> st)
            | None => (json 400 (ErrorBody "Signer not found in envelope"), st)
            end
      | _, _ => (json 404 (ErrorBody "Envelope not found"), st)
      end
  end.

(** [POST /api/envelopes/:token/complete]: the token is verified, then the
    upload is taken, then the route runs. *)
Definition complete (st : Store) (now : Z) (token : option TokenText)
    (file : Upload) : Response * Store :=
  match verifyJWT token now with
  | inl r => (r, st)
  | inr a =>
      match file with
      | NotPdf => (json 500 (ErrorBody "Only PDF files allowed"), st)
      | NoFile => (json 400 (ErrorBody "Missing file in upload"), st)
      | PdfFile stored =>
          match req_envId a, findById (req_envId a) st with
          | Some id, Some env =>
              let idx := signer_index a env in
              if out_of_range idx env then
                (json 400 (ErrorBody "Signer not found in envelope"), st)
              else
                let url := BASE_URL +:+ "/storage/signed/" +:+ stored in
                let env' := mark_completed now url (Z.to_nat idx) env in
                match signers env' !! Z.to_nat idx with
                | Some s =>
                    (json 200 (CompletedBody (signedPdf env') id idx (email s)
                                 (documentStatus env')),
                     <[id := env']> st)
                | None => (json 400 (ErrorBody "Signer not found in envelope"), st)
                end
          | _, _ => (json 404 (ErrorBody "Envelope not found"), st)
          end
      end
  end.

(** [POST /api/envelopes/:token/cancel] *)
Definition cancel (st : Store) (now : Z) (token : option TokenText)
    : Response * Store :=
  match verifyJWT token now with
  | inl r => (r, st)
  | inr a =>
      match req_envId a, findById (req_envId a) st with
      | Some id, Some env =>
          (json 200 (CancelledBody id), <[id := mark_voided env]> st)
      | _, _ => (json 404 (ErrorBody "Envelope not found"), st)
      end
  end.

(** [GET /sign/:token] *)
Definition sign_page (token : TokenText) (now : Z) : Response :=
  match jwt_verify token JWT_SECRET now with
  | inl _ => json 401 (TextBody "Link expired")
  | inr _ => json 200 (PageBody "web/sign.html")
  end.

(** The three routes that change a stored envelope, as one step. *)
Inductive Request : Type :=
  | GetByToken (token : option TokenText)
  | PostComplete (token : option TokenText) (file : Upload)
  | PostCancel (token : option TokenText).

Definition handle (st : Store) (now : Z) (r : Request) : Response * Store :=
  match r with
  | GetByToken t => get_by_token st now t
  | PostComplete t f => complete st now t f
  | PostCancel t => cancel st now t
  end.

(** A run of requests, each at its own time, oldest first. *)
Fixpoint run (st : Store) (rs : list (Z * Request)) : Store :=
  match rs with
  | [] => st
  | (now, r) :: rest => run (handle st now r).2 rest
  end.

End Server.

(** ** The specification's own notions, for comparison with the code *)

Module Spec.

(** The aggregate status of an envelope as the specification derives it
    from the statuses of its signers. *)
Definition recompute (sts : list SIGN_EVENTS) : SIGN_EVENTS :=
  if forallb (fun x => bool_decide (x = VOIDED)) sts then VOIDED
  else if forallb (fun x => bool_decide (x = COMPLETED)) sts then COMPLETED
  else if forallb (fun x => bool_decide (x ∈ [DELIVERED; COMPLETED])) sts then DELIVERED
  else SENT.



(** *** The contract of the recipient parser

    The input is a JSON array of strings and of [{email, name}] objects, or
    a string delimited by commas, semicolons and newlines; an entry may be
    formatted as [Name <email>].  The output has one [{email, name}] per
    distinct valid email, the email lowercased and trimmed, the first
    occurrence winning; entries that fail a standard email-shape check are
    dropped.  The notions below are written from these words, not from the
    parser. *)

Inductive Entry : Type :=
  | Text (s : string)
  | Object (email name : string).

Definition delimiter (c : ascii) : bool :=
  Ascii.eqb c "," || Ascii.eqb c ";" || Ascii.eqb c "010".

Definition run_of (cur : string) : list string :=
  match cur with
  | EmptyString => []
  | _ => [cur]
  end.

(** The entries of a delimited string: its longest stretches without a
    delimiter; [cur] is the stretch being read. *)
Fixpoint stretches (cur : string) (s : string) : list string :=
  match s with
  | EmptyString => run_of cur
  | String c r =>
      if delimiter c then run_of cur ++ stretches EmptyString r
      else stretches (cur +:+ String c EmptyString) r
  end.

Fixpoint skip_blanks (s : string) : string :=
  match s with
  | String c r => if JS.is_space c then skip_blanks r else s
  | EmptyString => EmptyString
  end.

(** A text without the white space at its two ends. *)
Definition trimmed (s : string) : string :=
  String.rev (skip_blanks (String.rev (skip_blanks s))).

(** A text with every capital letter replaced by its small letter. *)
Definition lowercased (s : string) : string :=
  string_of_list_ascii (map JS.lower_char (list_ascii_of_string s)).

(** Of a reversed text, what stands before its first [<], put back in
    order: [acc] is what was read. *)
Fixpoint back_to_open (acc : string) (s : string) : option string :=
  match s with
  | EmptyString => None
  | String c r => if Ascii.eqb c "<" then Some acc else back_to_open (String c acc) r
  end.

(** The email of a text formatted as [Name <email>]: what stands between
    its last [<] and the [>] that ends it. *)
Definition bracketed (s : string) : option string :=
  match String.rev s with
  | String ">" r => back_to_open EmptyString r
  | _ => None
  end.

(** The email an entry names. *)
Definition email_of (e : Entry) : string :=
  match e with
  | Object em _ => em
  | Text s =>
      match bracketed (trimmed s) with
      | Some em => em
      | None => s
      end
  end.

Fixpoint has (p : ascii -> bool) (s : string) : bool :=
  match s with
  | EmptyString => false
  | String c r => p c || has p r
  end.

(** The two parts of a text around its first [@]. *)
Fixpoint around_at (before : string) (s : string) : option (string * string) :=
  match s with
  | EmptyString => None
  | String c r =>
      if Ascii.eqb c "@" then Some (before, r)
      else around_at (before +:+ String c EmptyString) r
  end.

(** A text without its first and its last character. *)
Definition inside (s : string) : string :=
  String.substring 1 (String.length s - 2) s.

(** The standard shape of an email: no white space, one [@] with text
    before it, and after it a domain that has a dot with text on both
    sides. *)
Definition email_shape (s : string) : bool :=
  negb (has JS.is_space s) &&
  match around_at EmptyString s with
  | Some (EmptyString, _) => false
  | Some (_, domain) =>
      negb (has (fun c => Ascii.eqb c "@") domain)
      && has (fun c => Ascii.eqb c ".") (inside domain)
  | None => false
  end.

(** An item of a JSON array as an entry. *)
Definition item_entry (v : JSON) : option Entry :=
  match v with
  | JString s => Some (Text s)
  | JObject fields =>
      match get "email" fields with
      | Some (JString em) =>
          Some (Object em match get "name" fields with
                          | Some (JString nm) => nm
                          | _ => EmptyString
                          end)
      | _ => None
      end
  | _ => None
  end.

(** The entries of an input: the items of a JSON array, or the stretches
    of a delimited string. *)
Definition entries (input : FieldText) : list Entry :=
  match input with
  | JsonText _ (JArray items) => omap item_entry items
  | JsonText text _ => map Text (stretches EmptyString text)
  | PlainText s => map Text (stretches EmptyString s)
  end.

(** A list without the repetitions of what it has further to the front;
    [seen] is what was met. *)
Fixpoint distinct (seen : list string) (l : list string) : list string :=
  match l with
  | [] => []
  | x :: r =>
      if bool_decide (x ∈ seen) then distinct seen r else x :: distinct (x :: seen) r
  end.

(** The distinct valid emails of an input, compared without case, in the
    order of their first occurrences. *)
Definition distinct_valid_emails (input : FieldText) : list string :=
  distinct []
    (filter (fun e => email_shape e = true)
       (map (fun e => lowercased (trimmed (email_of e))) (entries input))).

(** Deduplication in which the first occurrence wins and keeps its place. *)
Fixpoint first_occurrences (l : list Recipient) : list Recipient :=
  match l with
  | [] => []
  | r :: rest =>
      r :: filter (fun x => rcp_email x ≠ rcp_email r) (first_occurrences rest)
  end.

End Spec.

(** The recipients the entries of an input stand for, in order, before
    deduplication. *)
Definition read_entries (input : FieldText) : list Recipient :=
  omap read_entry (recipient_list input).

(** ** A scenario: one envelope, two signers

    The template [nda] exists, the recipients are [a@x.com] and [b@x.com];
    the envelope is created at time 5000 in an empty store, so its id is the
    first free one. *)

Module Scenario.

Definition base : string := "https://e-sign-delta.vercel.app".
Definition secret : string := "supersecret".

Definition world : World :=
  mkWorld (fun t => String.eqb t "nda")
    (fun _ t => Some ("5000-100000-" +:+ t +:+ ".html"))
    true true (fun _ _ => Some "queued").

(** The same world with the mail provider rejecting every send. *)
Definition mail_down : World :=
  mkWorld (tpl_exists world) (tpl_write world) true true (fun _ _ => None).

(** A world without any template file. *)
Definition no_template : World :=
  mkWorld (fun _ => false) (tpl_write world) true true (axios_post world).

(** A text between double quotes (code 34), as JSON writes a string. *)
Definition quoted (s : string) : string :=
  String "034" (s +:+ String "034" EmptyString).

Definition request : CreateRequest :=
  mkCreateRequest (JsonText ("[" +:+ quoted "nda" +:+ "]") (JArray [JString "nda"]))
    (PlainText "a@x.com, b@x.com") EmptyString.

Definition created : Store :=
  (generate_template base secret world ∅ 5000 request).2.

(** The token of the link sent to signer [i]. *)
Definition link (i : nat) (mail : string) : option TokenText :=
  Some (Encoded (mint secret 0 mail i 5000)).

Definition a_opens : Z * Request := (6000, GetByToken (link 0 "a@x.com")).
Definition b_opens : Z * Request := (6500, GetByToken (link 1 "b@x.com")).
Definition a_signs : Z * Request :=
  (7000, PostComplete (link 0 "a@x.com") (PdfFile "7000-200000.pdf")).
Definition b_signs : Z * Request :=
  (7500, PostComplete (link 1 "b@x.com") (PdfFile "7500-300000.pdf")).
Definition a_cancels : Z * Request := (8000, PostCancel (link 0 "a@x.com")).

Definition after (rs : list (Z * Request)) : Store := run base secret created rs.

(** The envelope of the scenario in a store. *)
Definition stored (st : Store) : Envelope :=
  default (mkEnvelope [] PENDING [] EmptyString EmptyString NoLink) (st !! 0%nat).

Definition statuses (st : Store) : list SIGN_EVENTS :=
  map status (signers (stored st)).

(** The text of a JSON array with one [{email, name}] object. *)
Definition object_text (mail nm : string) : string :=
  "[{" +:+ quoted "email" +:+ ":" +:+ quoted mail +:+ ","
       +:+ quoted "name" +:+ ":" +:+ quoted nm +:+ "}]".

(** A JSON array with one [{email, name}] object whose name has a line
    break, written [\n] in the text. *)
Definition two_line_name : FieldText :=
  JsonText (object_text "a@x.com" "Ann\nLee")
    (JArray [JObject [("email", JString "a@x.com");
                      ("name", JString ("Ann" +:+ String "010" "Lee"))]]).

(** The same object with a space in the place of the line break. *)
Definition one_line_name : FieldText :=
  JsonText (object_text "a@x.com" "Ann Lee")
    (JArray [JObject [("email", JString "a@x.com"); ("name", JString "Ann Lee")]]).

(** A JSON array with one string, formatted as a name and an email, whose
    name has a line break. *)
Definition two_line_text : FieldText :=
  JsonText ("[" +:+ quoted "Ann\nLee <a@x.com>" +:+ "]")
    (JArray [JString ("Ann" +:+ String "010" "Lee <a@x.com>")]).

Definition mixed_list : FieldText :=
  PlainText "a@x.com, Bob <B@X.com>;; A@x.com ;nobody, <c@y.org>".

(** Signer [a] uploads a second time. *)
Definition a_signs_again : Z * Request :=
  (9000, PostComplete (link 0 "a@x.com") (PdfFile "9000-400000.pdf")).

(** Signer [i] of the scenario's envelope in a store. *)
Definition signer_at (st : Store) (i : nat) : Signer :=
  default (mkSigner EmptyString EmptyString PENDING None None None NoLink)
    (signers (stored st) !! i).

End Scenario.

(** ** Statements of the specification that the code does not satisfy *)

Module Claimed.


(** [completedAt], once set, is never overwritten. *)
Definition completedAt_kept : Prop :=
  forall (BASE_URL JWT_SECRET : string) (st : Store) (now : Z) (r : Request)
         (id : nat) (env env' : Envelope) (i : nat) (s s' : Signer),
    st !! id = Some env ->
    (handle BASE_URL JWT_SECRET st now r).2 !! id = Some env' ->
    signers env !! i = Some s ->
    signers env' !! i = Some s' ->
    is_Some (completedAt s) -> completedAt s' = completedAt s.

(** A creation that stored its envelope is reported as a success, whatever
    the sends do. *)
Definition creation_reported : Prop :=
  forall (BASE_URL JWT_SECRET : string) (w : World) (st : Store) (now : Z)
         (req : CreateRequest),
    stores_envelope BASE_URL w req = true ->
    code (generate_template BASE_URL JWT_SECRET w st now req).1 = 200%nat.

(** The parser returns as many entries as the input contains distinct valid
    emails. *)
Definition one_entry_per_email : Prop :=
  forall input : FieldText,
    length (parseRecipients input) = length (Spec.distinct_valid_emails input).

(** The creation route answers 400, and stores nothing, when no template
    is selected, when no recipient is valid and when none of the selected
    templates has a file. *)
Definition rejected_with_400 : Prop :=
  forall (BASE_URL JWT_SECRET : string) (w : World) (st : Store) (now : Z)
         (req : CreateRequest),
    selected_templates (body_templates req) = None
    \/ selected_templates (body_templates req) = Some []
    \/ parseRecipients (body_emails req) = []
    \/ (exists selected names,
          selected_templates (body_templates req) = Some selected
          /\ all_of (map toString selected) = Some names
          /\ Forall (fun t => tpl_exists w t = false) names) ->
    code (generate_template BASE_URL JWT_SECRET w st now req).1 = 400%nat
    /\ (generate_template BASE_URL JWT_SECRET w st now req).2 = st.

End Claimed.


(** ** Further notions for the routes *)

(** The token a request carries. *)
Definition request_token (r : Request) : option TokenText :=
  match r with
  | GetByToken t => t
  | PostComplete t _ => t
  | PostCancel t => t
  end.

(** ** Well-formed envelopes *)

Definition is_set (t : option Z) : bool :=
  match t with
  | Some _ => true
  | None => false
  end.

(** The stamps of a signer agree with its status: [sentAt] is set; a
    signer that is [SENT] has no other stamp, one that is [DELIVERED] has
    [deliveredAt] and no [completedAt], one that is [COMPLETED] has
    [completedAt]; no signer is [PENDING]. *)
Definition stamped (s : Signer) : bool :=
  is_set (sentAt s) &&
  match status s with
  | PENDING => false
  | SENT => negb (is_set (deliveredAt s)) && negb (is_set (completedAt s))
  | DELIVERED => is_set (deliveredAt s) && negb (is_set (completedAt s))
  | COMPLETED => is_set (completedAt s)
  | VOIDED => true
  end.

Definition voided_or_completed (s : Signer) : bool :=
  bool_decide (status s ∈ [VOIDED; COMPLETED]).

(** The status of an envelope agrees with the statuses of its signers: it is
    [COMPLETED] exactly when every signer is, [DELIVERED] only when every
    signer is delivered or completed, [VOIDED] only when every signer is
    voided or completed, and never [PENDING]; there is a signer, and every
    signer is [stamped]. *)
Definition well_formed (env : Envelope) : bool :=
  match signers env with [] => false | _ :: _ => true end
  && forallb stamped (signers env)
  && match documentStatus env with
     | PENDING => false
     | SENT => negb (forallb is_completed (signers env))
     | DELIVERED =>
         forallb delivered_or_completed (signers env)
         && negb (forallb is_completed (signers env))
     | COMPLETED => forallb is_completed (signers env)
     | VOIDED =>
         forallb voided_or_completed (signers env)
         && negb (forallb is_completed (signers env))
     end.

(** ** The envelope of a creation, by name *)

(** The signers the creation route builds from the recipients, and the same
    signers once each holds its link. *)
Definition fresh_signers (now : Z) (form_name : string) (recipients : list Recipient)
    : list Signer :=
  map (new_signer now form_name) recipients.

Definition linked_signers (BASE_URL JWT_SECRET : string) (id : nat) (now : Z)
    (sg : list Signer) : list Signer :=
  imap (fun i s => with_link s (SignLink BASE_URL (mint JWT_SECRET id (email s) i now))) sg.

(** The link of the first signer, or none. *)
Definition first_link (sg : list Signer) : Link :=
  match sg with
  | s :: _ => signerUrl s
  | [] => NoLink
  end.

(** ** The single-signer variant of the server

    The older application: an envelope has one recipient and no signer
    list, a token carries only [_id], and the creation route signs with
    [expireTime], a hundred minutes. *)

Module Legacy.

Record Envelope : Type := mkEnvelope {
  recipientEmail : string;
  recipientName : string;
  documentStatus : SIGN_EVENTS;
  files : list OriginalFile;
  signedPdf : option (string * string)
}.

Abbreviation Store := (gmap nat Envelope).

Inductive Body : Type :=
  | ErrorBody (error : string)
  | TextBody (text : string)
  | PageBody (file : string)
  | DefaultErrorPage
  | SignUrlBody (signUrl : Link)
  | ViewBody (email name : string) (fileList : list (string * string))
  | DownloadBody (downloadUrl : string)
  | CancelledBody.

Record Response : Type := mkResponse { code : nat; body : Body }.

Definition json (c : nat) (b : Body) : Response := mkResponse c b.

(** [s.split(",")]: the pieces between the commas, empty ones included;
    [cur] is the piece being read, reversed. *)
Fixpoint split_on (d : ascii) (cur : string) (s : string) : list string :=
  match s with
  | EmptyString => [String.rev cur]
  | String c r =>
      if Ascii.eqb c d then String.rev cur :: split_on d EmptyString r
      else split_on d (String c cur) r
  end.

(** [selected]: [inl] when the fallback itself throws, which it does on a
    field that is absent ([undefined] has no [split]); else [None] for a
    JSON value that is not an array, or the items of the array, or the
    names of a text that is not JSON. *)
Definition selected_templates (templates : option FieldText)
    : unit + option (list JSON) :=
  match templates with
  | None => inl tt
  | Some (JsonText _ (JArray items)) => inr (Some items)
  | Some (JsonText _ _) => inr None
  | Some (PlainText s) =>
      inr (Some (map JString
                   (filter (fun x => JS.nonempty x = true)
                      (map JS.trim (split_on "," EmptyString s)))))
  end.

Section Server.

Variable BASE_URL : string.
Variable JWT_SECRET : string.

(** [expireTime = { expiresIn: "100m" }], in seconds. *)
Definition expireTime : option Z := Some 6000.

(** [verifyJWT]: a response that ends the request, or [req._id]. *)
Definition verifyJWT (token : option TokenText) (now : Z) : Response + option nat :=
  match token with
  | None => inl (json 401 (ErrorBody "Missing token"))
  | Some t =>
      match jwt_verify t JWT_SECRET now with
      | inl _ => inl (json 401 (ErrorBody "Invalid token"))
      | inr decoded => inr (tok__id (jwt_payload decoded))
      end
  end.

(** The loop over [selected]: each existing template is read, rendered and
    written, and nothing is pushed to [files], the push being commented out.
    [false] when the loop throws: an item cannot be printed into the path,
    or a template throws. *)
Fixpoint write_files (w : World) (k : nat) (selected : list JSON) : bool :=
  match selected with
  | [] => true
  | item :: r =>
      match toString item with
      | None => false
      | Some type =>
          if tpl_exists w type then
            match tpl_write w k type with
            | None => false
            | Some _ => write_files w (S k) r
            end
          else write_files w (S k) r
      end
  end.

Definition generation_failed : Response := json 500 (ErrorBody "Generation failed").

(** [POST /api/generate-template] *)
Definition generate_template (w : World) (st : Store) (now : Z)
    (templates : option FieldText) (form_name : string) : Response * Store :=
  match selected_templates templates with
  | inl _ => (generation_failed, st)
  | inr None | inr (Some []) => (json 400 (ErrorBody "Select at least one template"), st)
  | inr (Some selected) =>
      if write_files w 0 selected then
        let fl : list OriginalFile := [] in
        match fl with
        | [] => (json 404 (ErrorBody "No templates found"), st)
        | _ :: _ =>
            if create_ok w then
              let id := fresh (dom st) in
              let env := mkEnvelope "demo@user.com" form_name SENT fl None in
              let token := jwt_sign (mkPayload None (Some id) None None) JWT_SECRET
                             expireTime now in
              (json 200 (SignUrlBody (SignLink BASE_URL token)), <[id := env]> st)
            else (generation_failed, st)
        end
      else (generation_failed, st)
  end.

(** [GET /api/envelopes/by-token/:token] *)
Definition get_by_token (st : Store) (now : Z) (token : option TokenText)
    : Response * Store :=
  match verifyJWT token now with
  | inl r => (r, st)
  | inr id =>
      match id ≫= fun k => st !! k with
      | Some env =>
          (json 200 (ViewBody (recipientEmail env) (recipientName env)
                       (map (fun f => (publicUrl f, mimetype f)) (files env))), st)
      | None => (json 404 (ErrorBody "Envelope not found"), st)
      end
  end.

(** [POST /api/envelopes/:token/complete]: the envelope is looked up before
    [req.file] is read, and reading the name of a file that is not there
    throws into the route's [catch]; an upload the filter refuses goes to the
    default error handler. *)
Definition complete (st : Store) (now : Z) (token : option TokenText)
    (file : Upload) : Response * Store :=
  match verifyJWT token now with
  | inl r => (r, st)
  | inr id =>
      match file with
      | NotPdf => (json 500 DefaultErrorPage, st)
      | _ =>
          match id, id ≫= fun k => st !! k with
          | Some k, Some env =>
              match file with
              | PdfFile stored =>
                  let url := BASE_URL +:+ "/storage/signed/" +:+ stored in
                  (json 200 (DownloadBody url),
                   <[k := mkEnvelope (recipientEmail env) (recipientName env) COMPLETED
                            (files env) (Some (stored, url))]> st)
              | _ => (json 500 (ErrorBody "Upload failed"), st)
              end
          | _, _ => (json 404 (ErrorBody "Envelope not found"), st)
          end
      end
  end.

(** [POST /api/envelopes/:token/cancel] *)
Definition cancel (st : Store) (now : Z) (token : option TokenText)
    : Response * Store :=
  match verifyJWT token now with
  | inl r => (r, st)
  | inr id =>
      match id, id ≫= fun k => st !! k with
      | Some k, Some env =>
          (json 200 CancelledBody,
           <[k := mkEnvelope (recipientEmail env) (recipientName env) VOIDED
                    (files env) (signedPdf env)]> st)
      | _, _ => (json 404 (ErrorBody "Envelope not found"), st)
      end
  end.

End Server.

End Legacy.

(** ** More of the scenario *)

Module Cases.

(** A token for an envelope that is not stored, one whose index is out of
    range, and one of the older format, which carries only [_id]. *)
Definition unknown_envelope : option TokenText :=
  Some (Encoded (mint Scenario.secret 7 "a@x.com" 0 5000)).

Definition index_out_of_range : option TokenText :=
  Some (Encoded (mint Scenario.secret 0 "a@x.com" 9 5000)).

Definition older_format : JWT :=
  jwt_sign (mkPayload None (Some 0%nat) None None) Scenario.secret (Some 6000) 5000.

(** What the middleware would leave of a token with an email and no
    index. *)
Definition by_email : Auth := mkAuth (Some 0%nat) (Some "b@x.com") None.

(** A JSON array whose first item is an object with an email that cannot
    be printed, an object with an own [toString], and whose second item is
    the string [a@x.com]. *)
Definition unprintable_email : FieldText :=
  JsonText ("[{" +:+ Scenario.quoted "email" +:+ ":{" +:+ Scenario.quoted "toString"
              +:+ ":1}}," +:+ Scenario.quoted "a@x.com" +:+ "]")
    (JArray [JObject [("email", JObject [("toString", JNumber "1")])];
             JString "a@x.com"]).

(** A store of the single-signer variant with one cancelled envelope. *)
Definition legacy_store : Legacy.Store :=
  {[ 0%nat := Legacy.mkEnvelope "demo@user.com" "Ann" VOIDED [] None ]}.

End Cases.

(* ================================================================== *)
(** * Part II: properties *)
(* ================================================================== *)

Local Close Scope Z_scope.

(** ** The recipient parser *)

Section Parser.

Implicit Types (u : list (string * Recipient)) (l : list string) (r : Recipient).

Lemma uniq_has_elem k u : uniq_has k u = true ↔ k ∈ u.*1.
Proof.
  unfold uniq_has. induction u as [|[k' v'] u IH]; simpl.
  - split; [done | by intros ?%elem_of_nil].
  - rewrite orb_true_iff, IH, elem_of_cons, String.eqb_eq. naive_solver.
Qed.

Lemma uniq_has_not_elem k u : uniq_has k u = false ↔ k ∉ u.*1.
Proof. rewrite <- uniq_has_elem. by destruct (uniq_has k u). Qed.

(** Setting a key the [Map] does not have appends the pair. *)
Lemma uniq_set_fresh k v u : uniq_has k u = false → uniq_set k v u = u ++ [(k, v)].
Proof.
  induction u as [|[k' v'] u IH]; simpl; [done|].
  intros [H1 H2]%orb_false_iff. simpl in H1. rewrite H1. by rewrite IH.
Qed.

(** The loop, from any contents of the [Map]: its values are followed by
    the first occurrences of the emails it does not hold yet. *)
Lemma loop_first_occurrences l u :
  (fold_left loop_body l u).*2 =
  u.*2 ++ filter (λ x, rcp_email x ∉ u.*1) (Spec.first_occurrences (omap read_entry l)).
Proof.
  revert u. induction l as [|raw l IH]; intros u; simpl.
  - by rewrite app_nil_r.
  - unfold loop_body at 2. destruct (read_entry raw) as [r|]; simpl; [|apply IH].
    destruct (uniq_has (rcp_email r) u) eqn:Hhas.
    + apply uniq_has_elem in Hhas. rewrite IH. f_equal.
      rewrite filter_cons_False by naive_solver.
      rewrite list_filter_filter. apply list_filter_iff.
      intros x; split; [|tauto]. intros Hx; split; [done|]. congruence.
    + rewrite uniq_set_fresh by done. apply uniq_has_not_elem in Hhas.
      rewrite IH. rewrite !fmap_app; simpl. rewrite <- app_assoc; simpl.
      f_equal. rewrite filter_cons_True by done. f_equal.
      rewrite list_filter_filter. apply list_filter_iff.
      intros x. rewrite elem_of_app, list_elem_of_singleton. naive_solver.
Qed.

Lemma filter_all {A} (P : A → Prop) `{!∀ x, Decision (P x)} (xs : list A) :
  (∀ x, P x) → filter P xs = xs.
Proof.
  intros HP. induction xs as [|x xs IH]; [done|].
  by rewrite filter_cons_True, IH.
Qed.

(** [parseRecipients] keeps, of the recipients its entries stand for, the
    first of each email, in the order of the entries. *)
Lemma parseRecipients_first_occurrences input :
  parseRecipients input = Spec.first_occurrences (read_entries input).
Proof.
  unfold parseRecipients, read_entries.
  change (map snd ?x) with (x.*2). rewrite loop_first_occurrences; simpl.
  apply filter_all. intros x. apply not_elem_of_nil.
Qed.

Lemma first_occurrences_sub (rs : list Recipient) x :
  x ∈ Spec.first_occurrences rs → x ∈ rs.
Proof.
  induction rs as [|r rs IH]; simpl; [done|].
  rewrite !elem_of_cons, list_elem_of_filter. naive_solver.
Qed.

Lemma first_occurrences_NoDup (rs : list Recipient) :
  NoDup (rcp_email <$> Spec.first_occurrences rs).
Proof.
  induction rs as [|r rs IH]; [constructor|].
  cbn [Spec.first_occurrences]. rewrite fmap_cons. constructor.
  - rewrite list_elem_of_fmap. intros (x & Hx & Hin).
    apply list_elem_of_filter in Hin as [Hne _]. by apply Hne.
  - eapply sublist_NoDup; [exact IH|].
    apply fmap_sublist, sublist_filter.
Qed.

End Parser.

(** ** Strings: trimming, lower case and the two patterns *)

Section Strings.

Implicit Types (s x y e p : string) (c : ascii).

Lemma lower_char_idemp c : JS.lower_char (JS.lower_char c) = JS.lower_char c.
Proof. by destruct c as [[] [] [] [] [] [] [] []]. Qed.

Lemma toLowerCase_idemp s : JS.toLowerCase (JS.toLowerCase s) = JS.toLowerCase s.
Proof. induction s as [|c s IH]; simpl; [done|]. by rewrite lower_char_idemp, IH. Qed.

Lemma trimEnd_no_space s :
  JS.string_forall (λ c, negb (JS.is_space c)) s = true → JS.trimEnd s = s.
Proof.
  induction s as [|c s IH]; simpl; [done|].
  intros [Hc Hs]%andb_true_iff. rewrite IH by done.
  destruct s; [|done]. by destruct (JS.is_space c).
Qed.

Lemma trimStart_no_space s :
  JS.string_forall (λ c, negb (JS.is_space c)) s = true → JS.trimStart s = s.
Proof.
  destruct s as [|c s]; simpl; [done|].
  intros [Hc _]%andb_true_iff. by destruct (JS.is_space c).
Qed.

Lemma trim_no_space s :
  JS.string_forall (λ c, negb (JS.is_space c)) s = true → JS.trim s = s.
Proof.
  intros H. unfold JS.trim. by rewrite trimStart_no_space, trimEnd_no_space.
Qed.

Lemma string_forall_impl (P Q : ascii → bool) s :
  (∀ c, P c = true → Q c = true) →
  JS.string_forall P s = true → JS.string_forall Q s = true.
Proof.
  intros HPQ. induction s as [|c s IH]; simpl; [done|].
  intros [Hc Hs]%andb_true_iff. by rewrite (HPQ c Hc), IH.
Qed.

Lemma domain_test_chars seen s :
  domain_test seen s = true → JS.string_forall email_char s = true.
Proof.
  revert seen. induction s as [|c s IH]; intros seen; simpl; [done|].
  intros [Hc H]%andb_true_iff. rewrite Hc; simpl.
  apply orb_true_iff in H as [H|H]; [|by eapply IH].
  by apply andb_true_iff in H as [_ H].
Qed.

(** An email the pattern accepts has no white space. *)
Lemma emailRegex_no_space e :
  emailRegex_test e = true → JS.string_forall (λ c, negb (JS.is_space c)) e = true.
Proof.
  unfold emailRegex_test. generalize false.
  induction e as [|c e IH]; intros seen; simpl; [done|].
  destruct (Ascii.eqb c "@") eqn:Hat.
  - apply Ascii.eqb_eq in Hat as ->. intros [_ H]%andb_true_iff. simpl.
    apply domain_test_chars in H.
    eapply string_forall_impl; [|exact H].
    intros c. unfold email_char. by destruct (JS.is_space c).
  - intros [Hc H]%andb_true_iff. rewrite Hc; simpl. by eapply IH.
Qed.

Lemma until_close_app e :
  JS.string_forall (λ c, negb (Ascii.eqb c ">")) e = true →
  until_close (e +:+ ">") = Some e.
Proof.
  induction e as [|c e IH]; [done|].
  change (String c e +:+ ">") with (String c (e +:+ ">")). simpl.
  intros [Hc He]%andb_true_iff. apply negb_true_iff in Hc.
  by rewrite Hc, IH.
Qed.

End Strings.

(** ** The two patterns, declaratively *)

Section Patterns.

Implicit Types (s l pre mid : string) (c : ascii).

Lemma domain_test_sound seen s :
  domain_test seen s = true →
  ∃ d1 d2, s = d1 +:+ "." +:+ d2
    ∧ (seen = true ∨ JS.nonempty d1 = true) ∧ JS.nonempty d2 = true
    ∧ JS.string_forall email_char d1 = true ∧ JS.string_forall email_char d2 = true.
Proof.
  revert seen. induction s as [|c s IH]; intros seen; simpl; [done|].
  intros [Hc [H|H]%orb_true_iff]%andb_true_iff.
  - apply andb_true_iff in H as [[[Hdot ->]%andb_true_iff Hne]%andb_true_iff Hall].
    apply Ascii.eqb_eq in Hdot as ->. exists EmptyString, s. auto.
  - destruct (IH _ H) as (d1 & d2 & -> & _ & Hne & H1 & H2).
    exists (String c d1), d2. simpl. rewrite Hc, H1. auto.
Qed.

Lemma domain_test_complete seen (d1 d2 : string) :
  seen = true ∨ JS.nonempty d1 = true → JS.nonempty d2 = true →
  JS.string_forall email_char d1 = true → JS.string_forall email_char d2 = true →
  domain_test seen (d1 +:+ "." +:+ d2) = true.
Proof.
  intros Hseen Hne H1 H2. revert seen Hseen.
  induction d1 as [|c d1 IH]; intros seen Hseen.
  - destruct Hseen as [->|?]; [|done].
    change (EmptyString +:+ "." +:+ d2) with (String "." d2). simpl.
    by rewrite Hne, H2.
  - change (String c d1 +:+ "." +:+ d2) with (String c (d1 +:+ "." +:+ d2)).
    simpl in H1. apply andb_true_iff in H1 as [Hc H1].
    cbn [domain_test]. rewrite Hc, IH by auto. apply orb_true_r.
Qed.

(** X18.  [emailRegex] accepts exactly the texts [l@d1.d2] whose three parts
    are not empty and have neither white space nor [@]. *)
Lemma emailRegex_test_spec s :
  emailRegex_test s = true ↔
  ∃ l d1 d2, s = l +:+ "@" +:+ d1 +:+ "." +:+ d2
    ∧ JS.nonempty l = true ∧ JS.nonempty d1 = true ∧ JS.nonempty d2 = true
    ∧ JS.string_forall email_char l = true
    ∧ JS.string_forall email_char d1 = true
    ∧ JS.string_forall email_char d2 = true.
Proof.
  unfold emailRegex_test.
  assert (∀ seen, local_test seen s = true ↔
    ∃ l d1 d2, s = l +:+ "@" +:+ d1 +:+ "." +:+ d2
      ∧ (seen = true ∨ JS.nonempty l = true) ∧ JS.nonempty d1 = true
      ∧ JS.nonempty d2 = true ∧ JS.string_forall email_char l = true
      ∧ JS.string_forall email_char d1 = true
      ∧ JS.string_forall email_char d2 = true) as Hgen.
  { induction s as [|c s IH]; intros seen.
    - split; [done|]. by intros ([|? ?] & ? & ? & ? & _).
    - cbn [local_test]. destruct (Ascii.eqb c "@") eqn:Hat.
      + apply Ascii.eqb_eq in Hat as ->. split.
        * intros [-> Hd]%andb_true_iff.
          destruct (domain_test_sound _ _ Hd) as (d1 & d2 & -> & [|Hn1] & Hn2 & H1 & H2);
            [done|]. exists EmptyString, d1, d2. auto 10.
        * intros ([|c l] & d1 & d2 & Heq & Hseen & Hn1 & Hn2 & Hl & H1 & H2).
          -- injection Heq as ->. destruct Hseen as [->|]; [|done].
             by apply domain_test_complete; auto.
          -- injection Heq as <- _. by simpl in Hl.
      + rewrite andb_true_iff, IH. split.
        * intros (Hc & l & d1 & d2 & -> & _ & Hn1 & Hn2 & Hl & H1 & H2).
          exists (String c l), d1, d2. simpl.
          unfold email_char at 1. rewrite Hat.
          apply negb_true_iff in Hc. rewrite Hc. simpl. auto 10.
        * intros ([|c' l] & d1 & d2 & Heq & Hseen & Hn1 & Hn2 & Hl & H1 & H2).
          -- injection Heq as -> _. by rewrite Ascii.eqb_refl in Hat.
          -- injection Heq as <- ->. simpl in Hl.
             apply andb_true_iff in Hl as [Hc Hl]. split.
             ++ unfold email_char in Hc. by destruct (JS.is_space c).
             ++ exists l, d1, d2. auto 10. }
  rewrite Hgen. split; intros (l & d1 & d2 & Heq & H & Hrest).
  - destruct H as [|H]; [done|]. exists l, d1, d2. auto.
  - exists l, d1, d2. auto.
Qed.

Lemma until_close_sound s mid :
  until_close s = Some mid →
  s = mid +:+ ">" ∧ JS.string_forall (λ c, negb (Ascii.eqb c ">")) mid = true.
Proof.
  revert mid. induction s as [|c s IH]; intros mid; simpl; [done|].
  destruct (Ascii.eqb c ">") eqn:Hc.
  - apply Ascii.eqb_eq in Hc as ->. destruct s; [|done]. by intros [= <-].
  - destruct (until_close s) as [m|]; [|done]. intros [= <-].
    destruct (IH m eq_refl) as [-> Hm]. simpl. by rewrite Hc, Hm.
Qed.

(** What the pattern for [Name <email>] returns is a reading of the text:
    a first group without line terminator, a second group that is not empty
    and has no [>]. *)
Lemma match_angle_sound s pre mid :
  match_angle s = Some (pre, mid) →
  s = pre +:+ "<" +:+ mid +:+ ">"
  ∧ JS.string_forall (λ c, negb (JS.is_line_terminator c)) pre = true
  ∧ JS.nonempty mid = true
  ∧ JS.string_forall (λ c, negb (Ascii.eqb c ">")) mid = true.
Proof.
  revert pre. induction s as [|c s IH]; intros pre; [done|].
  cbn [match_angle].
  destruct (JS.is_line_terminator c) eqn:Hlt;
    [|destruct (match_angle s) as [[p m]|] eqn:Hm].
  - destruct (Ascii.eqb c "<") eqn:Hc; [|done]. by destruct c as [[] [] [] [] [] [] [] []].
  - cbn. intros [= <- <-]. destruct (IH p eq_refl) as (-> & Hp & Hne & Hmid).
    simpl. by rewrite Hlt, Hp.
  - cbn. destruct (Ascii.eqb c "<") eqn:Hc; [|done].
    apply Ascii.eqb_eq in Hc as ->. unfold angle_tail.
    destruct (until_close s) as [[|c m]|] eqn:Hu; try done.
    cbn. intros [= <- <-]. by destruct (until_close_sound _ _ Hu) as [-> Hmid].
Qed.

(** Every such reading is found, or one with a longer first group is. *)
Lemma match_angle_complete pre mid :
  JS.string_forall (λ c, negb (JS.is_line_terminator c)) pre = true →
  JS.nonempty mid = true →
  JS.string_forall (λ c, negb (Ascii.eqb c ">")) mid = true →
  ∃ pre' mid', match_angle (pre +:+ "<" +:+ mid +:+ ">") = Some (pre', mid')
    ∧ String.length pre ≤ String.length pre'.
Proof.
  intros Hpre Hne Hmid. induction pre as [|c pre IH].
  - change (EmptyString +:+ "<" +:+ mid +:+ ">") with (String "<" (mid +:+ ">")).
    cbn [match_angle JS.is_line_terminator].
    destruct (match_angle (mid +:+ ">")) as [[p m]|]; cbn.
    + exists (String "<" p), m. split; [done|]. simpl. lia.
    + unfold angle_tail. rewrite until_close_app by done.
      exists EmptyString, mid. by destruct mid.
  - change (String c pre +:+ "<" +:+ mid +:+ ">")
      with (String c (pre +:+ "<" +:+ mid +:+ ">")).
    simpl in Hpre. apply andb_true_iff in Hpre as [Hc Hpre].
    destruct (IH Hpre) as (p & m & Hm & Hlen).
    cbn [match_angle]. rewrite Hm. apply negb_true_iff in Hc. rewrite Hc. cbn.
    exists (String c p), m. split; [done|]. simpl. lia.
Qed.

End Patterns.

(** ** From entries to recipients *)

Section Entries.

(** A recipient read from an entry has a valid email, which is a text in
    lower case. *)
Lemma read_entry_Some raw r :
  read_entry raw = Some r →
  emailRegex_test (rcp_email r) = true ∧ ∃ x, rcp_email r = JS.toLowerCase x.
Proof.
  unfold read_entry.
  destruct (JS.nonempty (JS.trim raw)); [|done].
  destruct (match_angle (JS.trim raw)) as [[pre mid]|].
  - destruct (emailRegex_test (JS.toLowerCase (JS.trim mid))) eqn:Hok; [|done].
    intros [= <-]. eauto.
  - destruct (emailRegex_test (JS.toLowerCase (JS.trim raw))) eqn:Hok; [|done].
    intros [= <-]. eauto.
Qed.

(** Dropping the empty entries, as the filter of the array does, changes
    nothing for the loop, which skips them. *)
Lemma read_nonempty (l : list string) :
  omap read_entry (filter (λ s, JS.nonempty s = true) l) = omap read_entry l.
Proof.
  induction l as [|s l IH]; [done|].
  destruct s as [|c s].
  - rewrite filter_cons_False by done. exact IH.
  - rewrite filter_cons_True by done. cbn [omap list_omap]. by rewrite IH.
Qed.

Lemma read_entries_valid input r :
  r ∈ read_entries input →
  emailRegex_test (rcp_email r) = true
  ∧ JS.toLowerCase (rcp_email r) = rcp_email r
  ∧ JS.trim (rcp_email r) = rcp_email r.
Proof.
  unfold read_entries. rewrite list_elem_of_omap. intros (raw & _ & Hr).
  apply read_entry_Some in Hr as [Hok [x He]]. split; [done|]. split.
  - rewrite He. apply toLowerCase_idemp.
  - by apply trim_no_space, emailRegex_no_space.
Qed.

(** The entries of an array of strings are these strings, the empty ones
    apart: the callback does not throw on a string. *)
Lemma array_entries_strings (l : list string) :
  array_entries (map JString l) = Some (filter (λ s, JS.nonempty s = true) l).
Proof.
  unfold array_entries.
  assert (all_of (map entry_of (map JString l)) = Some (map Some l)) as ->.
  { induction l as [|x l IH]; [done|]. cbn. by rewrite IH. }
  do 2 f_equal. induction l as [|x l IH]; [done|]. cbn. by rewrite IH.
Qed.

End Entries.

(** ** One envelope: what each route does to a signer *)

Section Transitions.

Implicit Types (env : Envelope) (s : Signer) (idx i : nat).

Lemma mark_delivered_length now idx env :
  length (signers (mark_delivered now idx env)) = length (signers env).
Proof.
  unfold mark_delivered. destruct (signers env !! idx) as [s|]; [|done].
  case_bool_decide; [|done]. simpl. apply length_insert.
Qed.

Lemma mark_completed_length now url idx env :
  length (signers (mark_completed now url idx env)) = length (signers env).
Proof.
  unfold mark_completed. destruct (signers env !! idx) as [s|]; [|done].
  simpl. apply length_insert.
Qed.


(** A read by token changes at most the signer it addresses, and only one
    that is [SENT]. *)
Lemma mark_delivered_signer now idx env i s s' :
  signers env !! i = Some s →
  signers (mark_delivered now idx env) !! i = Some s' →
  s' = s
  ∨ (i = idx ∧ status s = SENT
     ∧ s' = mkSigner (email s) (name s) DELIVERED (sentAt s) (Some now)
              (completedAt s) (signerUrl s)).
Proof.
  intros Hs. unfold mark_delivered.
  destruct (signers env !! idx) as [s0|] eqn:H0; [|left; congruence].
  case_bool_decide as Hsent; [|left; congruence]. simpl.
  destruct (decide (idx = i)) as [->|Hne].
  - rewrite list_lookup_insert_eq by (by eapply lookup_lt_Some).
    intros [= <-]. right. by simplify_eq.
  - rewrite list_lookup_insert_ne by done. left; congruence.
Qed.

(** A completion changes exactly the signer it addresses. *)
Lemma mark_completed_signer now url idx env i s s' :
  signers env !! i = Some s →
  signers (mark_completed now url idx env) !! i = Some s' →
  (i ≠ idx ∧ s' = s)
  ∨ (i = idx
     ∧ s' = mkSigner (email s) (name s) COMPLETED (sentAt s) (deliveredAt s)
              (Some now) (signerUrl s)).
Proof.
  intros Hs. unfold mark_completed.
  destruct (signers env !! idx) as [s0|] eqn:H0.
  - simpl. destruct (decide (idx = i)) as [->|Hne].
    + rewrite list_lookup_insert_eq by (by eapply lookup_lt_Some).
      intros [= <-]. right. by simplify_eq.
    + rewrite list_lookup_insert_ne by done. left. split; congruence.
  - intros Hs'. left. split; [|congruence]. intros ->. congruence.
Qed.

Lemma mark_voided_signer env i s s' :
  signers env !! i = Some s →
  signers (mark_voided env) !! i = Some s' →
  s' = void_signer s.
Proof.
  intros Hs. simpl. change (map void_signer ?l) with (void_signer <$> l).
  rewrite list_lookup_fmap, Hs. by intros [= <-].
Qed.

Lemma forallb_Forall {A} (p : A → bool) (l : list A) :
  forallb p l = true ↔ Forall (λ x, p x = true) l.
Proof.
  induction l as [|x l IH]; simpl.
  - split; [constructor|done].
  - rewrite andb_true_iff, IH, Forall_cons. done.
Qed.

(** The envelope status after a completion: [COMPLETED] when every signer
    is, else what it was. *)
Lemma mark_completed_status now url idx env :
  idx < length (signers env) →
  let env' := mark_completed now url idx env in
  (Forall (λ s, status s = COMPLETED) (signers env') → documentStatus env' = COMPLETED)
  ∧ (¬ Forall (λ s, status s = COMPLETED) (signers env') →
     documentStatus env' = documentStatus env).
Proof.
  intros [s Hs]%lookup_lt_is_Some_2. unfold mark_completed. rewrite Hs. simpl.
  destruct (forallb is_completed _) eqn:Hall.
  - split; [done|]. intros Hn. exfalso. apply Hn.
    apply forallb_Forall in Hall. eapply Forall_impl; [exact Hall|].
    intros x Hx. unfold is_completed in Hx. by apply bool_decide_eq_true in Hx.
  - split; [|done]. intros HF. exfalso.
    assert (forallb is_completed
              (<[idx:=mkSigner (email s) (name s) COMPLETED (sentAt s)
                        (deliveredAt s) (Some now) (signerUrl s)]> (signers env)) = true);
      [|congruence].
    apply forallb_Forall. eapply Forall_impl; [exact HF|].
    intros x Hx. unfold is_completed. by apply bool_decide_eq_true.
Qed.


Lemma mark_delivered_twice now1 now2 idx env :
  mark_delivered now2 idx (mark_delivered now1 idx env) = mark_delivered now1 idx env.
Proof.
  unfold mark_delivered at 2 3.
  destruct (signers env !! idx) as [s|] eqn:Hs.
  - case_bool_decide as Hsent.
    + unfold mark_delivered. simpl.
      rewrite list_lookup_insert_eq by (by eapply lookup_lt_Some). by simpl.
    + unfold mark_delivered. rewrite Hs. by rewrite bool_decide_eq_false_2.
  - unfold mark_delivered. by rewrite Hs.
Qed.

End Transitions.

(** ** The routes on the store *)

Section Routes.

Variables BASE_URL JWT_SECRET : string.

Implicit Types (st : Store) (env : Envelope) (s : Signer) (a : Auth).

Lemma in_range_nat idx env :
  out_of_range idx env = false →
  Z.to_nat idx < length (signers env) ∧ Z.of_nat (Z.to_nat idx) = idx.
Proof.
  unfold out_of_range. intros [H1 H2]%orb_false_iff.
  apply Z.ltb_ge in H1. rewrite Z.geb_leb in H2. apply Z.leb_gt in H2. lia.
Qed.

(** The request left the envelope as it was. *)
Local Ltac unchanged := cbn [snd]; intros; left; congruence.

(** What a request can do to a stored envelope: nothing, or one of the
    three transitions, at a signer of the envelope. *)
Lemma handle_cases st now r id env env' :
  st !! id = Some env →
  (handle BASE_URL JWT_SECRET st now r).2 !! id = Some env' →
  env' = env
  ∨ (∃ t idx, r = GetByToken t ∧ idx < length (signers env)
       ∧ env' = mark_delivered now idx env)
  ∨ (∃ t stored idx, r = PostComplete t (PdfFile stored)
       ∧ idx < length (signers env)
       ∧ env' = mark_completed now (BASE_URL +:+ "/storage/signed/" +:+ stored) idx env)
  ∨ (∃ t, r = PostCancel t ∧ env' = mark_voided env).
Proof.
  intros Henv. destruct r as [t|t f|t]; cbn [handle].
  - unfold get_by_token. destruct (verifyJWT JWT_SECRET t now) as [e|a]; cbn [snd].
    { unchanged. }
    destruct (req_envId a) as [k|]; cbn [snd findById mbind option_bind]; [|unchanged].
    destruct (st !! k) as [env0|] eqn:Hk; [|unchanged].
    destruct (out_of_range (signer_index a env0) env0) eqn:Hrange; [unchanged|].
    destruct (signers (mark_delivered now _ env0) !! _); cbn [snd]; [|unchanged].
    destruct (decide (k = id)) as [->|Hne].
    + rewrite lookup_insert_eq. intros [= <-]. simplify_eq.
      right; left. exists t, (Z.to_nat (signer_index a env)).
      by destruct (in_range_nat _ _ Hrange).
    + rewrite lookup_insert_ne by done. unchanged.
  - unfold complete. destruct (verifyJWT JWT_SECRET t now) as [e|a]; cbn [snd].
    { unchanged. }
    destruct f as [| |stored]; cbn [snd]; [unchanged..|].
    destruct (req_envId a) as [k|]; cbn [snd findById mbind option_bind]; [|unchanged].
    destruct (st !! k) as [env0|] eqn:Hk; [|unchanged].
    destruct (out_of_range (signer_index a env0) env0) eqn:Hrange; [unchanged|].
    destruct (signers (mark_completed now _ _ env0) !! _); cbn [snd]; [|unchanged].
    destruct (decide (k = id)) as [->|Hne].
    + rewrite lookup_insert_eq. intros [= <-]. simplify_eq.
      right; right; left. exists t, stored, (Z.to_nat (signer_index a env)).
      by destruct (in_range_nat _ _ Hrange).
    + rewrite lookup_insert_ne by done. unchanged.
  - unfold cancel. destruct (verifyJWT JWT_SECRET t now) as [e|a]; cbn [snd].
    { unchanged. }
    destruct (req_envId a) as [k|]; cbn [snd findById mbind option_bind]; [|unchanged].
    destruct (st !! k) as [env0|] eqn:Hk; cbn [snd]; [|unchanged].
    destruct (decide (k = id)) as [->|Hne].
    + rewrite lookup_insert_eq. intros [= <-]. simplify_eq.
      right; right; right. by exists t.
    + rewrite lookup_insert_ne by done. unchanged.
Qed.


End Routes.

(** ** The state machine on the store *)

Section Machine.

Variables BASE_URL JWT_SECRET : string.

Implicit Types (st : Store) (env : Envelope) (s : Signer) (a : Auth).

(** C7.  One cancel with a valid token voids every signer and the envelope,
    whatever their states were. *)
Theorem C7_cancel_voids_everything st now token a id env :
  verifyJWT JWT_SECRET token now = inr a →
  req_envId a = Some id →
  st !! id = Some env →
  cancel JWT_SECRET st now token
    = (json 200 (CancelledBody id), <[id := mark_voided env]> st)
  ∧ (cancel JWT_SECRET st now token).2 !! id = Some (mark_voided env)
  ∧ documentStatus (mark_voided env) = VOIDED
  ∧ Forall (λ s, status s = VOIDED) (signers (mark_voided env))
  ∧ length (signers (mark_voided env)) = length (signers env).
Proof.
  intros Hauth Hid Henv.
  assert (cancel JWT_SECRET st now token
          = (json 200 (CancelledBody id), <[id := mark_voided env]> st)) as Hrun.
  { unfold cancel. rewrite Hauth, Hid. cbn [findById mbind option_bind].
    by rewrite Henv. }
  split; [exact Hrun|]. rewrite Hrun. cbn [snd mark_voided signers documentStatus].
  split; [apply lookup_insert_eq|]. split; [done|]. split.
  - apply Forall_forall. intros s. rewrite list_elem_of_In, in_map_iff.
    by intros (s0 & <- & _).
  - apply length_map.
Qed.

(** C10.  The complete route has no guard on the state: with a valid
    token, an uploaded PDF and a signer index in range it answers 200,
    makes that signer [COMPLETED] at the time of the request, points
    [signedPdf] at the upload, leaves the other signers alone, and makes the
    envelope [COMPLETED] when every signer then is, whatever the signer and
    the envelope were before, [VOIDED] and [COMPLETED] included. *)
Theorem C10_complete_ignores_state st now token stored a id env idx s :
  verifyJWT JWT_SECRET token now = inr a →
  req_envId a = Some id →
  st !! id = Some env →
  signer_index a env = Z.of_nat idx →
  signers env !! idx = Some s →
  complete BASE_URL JWT_SECRET st now token (PdfFile stored)
    = (json 200
         (CompletedBody (BASE_URL +:+ "/storage/signed/" +:+ stored) id (Z.of_nat idx)
            (email s)
            (documentStatus
               (mark_completed now (BASE_URL +:+ "/storage/signed/" +:+ stored) idx env))),
       <[id := mark_completed now (BASE_URL +:+ "/storage/signed/" +:+ stored) idx env]> st)
  ∧ signers (mark_completed now (BASE_URL +:+ "/storage/signed/" +:+ stored) idx env) !! idx
    = Some (mkSigner (email s) (name s) COMPLETED (sentAt s) (deliveredAt s)
              (Some now) (signerUrl s))
  ∧ (∀ j, j ≠ idx →
       signers (mark_completed now (BASE_URL +:+ "/storage/signed/" +:+ stored) idx env) !! j
       = signers env !! j)
  ∧ signedPdf (mark_completed now (BASE_URL +:+ "/storage/signed/" +:+ stored) idx env)
    = BASE_URL +:+ "/storage/signed/" +:+ stored
  ∧ (Forall (λ x, status x = COMPLETED)
       (signers (mark_completed now (BASE_URL +:+ "/storage/signed/" +:+ stored) idx env)) →
     documentStatus (mark_completed now (BASE_URL +:+ "/storage/signed/" +:+ stored) idx env)
     = COMPLETED)
  ∧ (¬ Forall (λ x, status x = COMPLETED)
       (signers (mark_completed now (BASE_URL +:+ "/storage/signed/" +:+ stored) idx env)) →
     documentStatus (mark_completed now (BASE_URL +:+ "/storage/signed/" +:+ stored) idx env)
     = documentStatus env).
Proof.
  intros Hauth Hid Henv Hidx Hs.
  pose proof (lookup_lt_Some _ _ _ Hs) as Hlt.
  set (url := BASE_URL +:+ "/storage/signed/" +:+ stored).
  assert (signers (mark_completed now url idx env) !! idx
          = Some (mkSigner (email s) (name s) COMPLETED (sentAt s) (deliveredAt s)
                    (Some now) (signerUrl s))) as Hnew.
  { unfold mark_completed. rewrite Hs. simpl. by apply list_lookup_insert_eq. }
  split; [|split; [exact Hnew|split; [|split; [|apply mark_completed_status; exact Hlt]]]].
  - unfold complete. rewrite Hauth, Hid. cbn [findById mbind option_bind].
    rewrite Henv, Hidx. unfold out_of_range.
    replace (Z.of_nat idx <? 0)%Z with false by (symmetry; apply Z.ltb_ge; lia).
    replace (Z.of_nat idx >=? Z.of_nat (length (signers env)))%Z with false
      by (symmetry; rewrite Z.geb_leb; apply Z.leb_gt; lia).
    cbn [orb]. rewrite Nat2Z.id. fold url. rewrite Hnew. cbn [email].
    unfold mark_completed at 1. by rewrite Hs.
  - intros j Hj. unfold mark_completed. rewrite Hs. simpl.
    by apply list_lookup_insert_ne.
  - unfold mark_completed. by rewrite Hs.
Qed.

End Machine.

Section Monotone.

Variables BASE_URL JWT_SECRET : string.

Implicit Types (st : Store) (env : Envelope) (s : Signer) (a : Auth).



Lemma verifyJWT_any_time token now1 now2 a1 a2 :
  verifyJWT JWT_SECRET token now1 = inr a1 →
  verifyJWT JWT_SECRET token now2 = inr a2 → a1 = a2.
Proof.
  unfold verifyJWT, jwt_verify. destruct token as [[|t]|]; try done.
  destruct (String.eqb _ _); [|done].
  destruct (jwt_exp t) as [e|]; [|congruence].
  destruct (_ >=? e)%Z; [done|]. destruct (_ >=? e)%Z; [done|]. congruence.
Qed.

Lemma findIndex_fmap {A B} (f : A → B) (p : B → bool) (l : list A) :
  findIndex (λ x, p (f x)) l = findIndex p (f <$> l).
Proof. induction l as [|x l IH]; [done|]. cbn. by rewrite IH. Qed.

Lemma mark_delivered_emails now idx env :
  email <$> signers (mark_delivered now idx env) = email <$> signers env.
Proof.
  unfold mark_delivered. destruct (signers env !! idx) as [s|] eqn:Hs; [|done].
  case_bool_decide; [|done]. simpl.
  rewrite list_fmap_insert. apply list_insert_id. by rewrite list_lookup_fmap, Hs.
Qed.

Lemma signer_index_delivered a now idx env :
  signer_index a (mark_delivered now idx env) = signer_index a env.
Proof.
  unfold signer_index. destruct (req_signerIndex a); [done|].
  rewrite (findIndex_fmap email
             (λ e, match req_signerEmail a with
                   | Some e' => String.eqb e e'
                   | None => false
                   end)).
  rewrite mark_delivered_emails. by rewrite <- findIndex_fmap.
Qed.

(** A second read with the same token leaves the store as the first one
    left it. *)
Lemma get_by_token_twice st now1 now2 token :
  code (get_by_token JWT_SECRET st now1 token).1 = 200 →
  (get_by_token JWT_SECRET (get_by_token JWT_SECRET st now1 token).2 now2 token).2
  = (get_by_token JWT_SECRET st now1 token).2.
Proof.
  unfold get_by_token at 1 3 4.
  destruct (verifyJWT JWT_SECRET token now1) as [e|a] eqn:Hv1.
  { unfold verifyJWT in Hv1. destruct token as [t|]; [|by simplify_eq].
    destruct (jwt_verify t JWT_SECRET now1); by simplify_eq. }
  destruct (req_envId a) as [k|] eqn:Hk; cbn [findById mbind option_bind]; [|done].
  destruct (st !! k) as [env|] eqn:Henv; [|done].
  destruct (out_of_range (signer_index a env) env) eqn:Hrange; [done|].
  destruct (signers (mark_delivered now1 _ env) !! _) as [s1|] eqn:Hs1; [|done].
  intros _. cbn [snd]. unfold get_by_token.
  destruct (verifyJWT JWT_SECRET token now2) as [e|a2] eqn:Hv2; [done|].
  rewrite <- (verifyJWT_any_time _ _ _ _ _ Hv1 Hv2), Hk.
  cbn [findById mbind option_bind]. rewrite lookup_insert_eq.
  rewrite signer_index_delivered.
  unfold out_of_range in *. rewrite mark_delivered_length, Hrange.
  rewrite mark_delivered_twice, Hs1. cbn [snd]. apply insert_insert_eq.
Qed.

(** C8, as amended.  No route touches [sentAt].  [deliveredAt] changes
    only when a read by token finds the signer [SENT] and makes it
    [DELIVERED], and no route makes a signer [SENT] again, so it is stamped
    at most once; a second read with the same token changes nothing at all.
    [completedAt] is kept by reads and cancels, and stamped by every
    completion of the signer: a completion of a signer that is already
    [COMPLETED] overwrites it with the time of the new request. *)
Theorem C8_timestamp_steps st now r id env env' :
  st !! id = Some env →
  (handle BASE_URL JWT_SECRET st now r).2 !! id = Some env' →
  (∀ i s s', signers env !! i = Some s → signers env' !! i = Some s' →
     sentAt s' = sentAt s
     ∧ (deliveredAt s' = deliveredAt s
        ∨ (∃ t, r = GetByToken t ∧ status s = SENT ∧ status s' = DELIVERED
             ∧ deliveredAt s' = Some now))
     ∧ (status s' = SENT → status s = SENT)
     ∧ (completedAt s' = completedAt s
        ∨ (∃ t stored, r = PostComplete t (PdfFile stored) ∧ status s' = COMPLETED
             ∧ completedAt s' = Some now)))
  ∧ (∀ t now2, r = GetByToken t →
       code (handle BASE_URL JWT_SECRET st now r).1 = 200 →
       (get_by_token JWT_SECRET (handle BASE_URL JWT_SECRET st now r).2 now2 t).2
       = (handle BASE_URL JWT_SECRET st now r).2).
Proof.
  intros Henv Henv'. split.
  - intros i s s' Hs Hs'.
    destruct (handle_cases _ _ _ _ _ _ _ _ Henv Henv')
      as [->|[(t & idx & -> & Hidx & ->)|[(t & f & idx & -> & Hidx & ->)|(t & -> & ->)]]].
    + assert (s' = s) as -> by congruence. auto.
    + destruct (mark_delivered_signer _ _ _ _ _ _ Hs Hs') as [->|(-> & Hsent & ->)];
        [by auto|]. simpl. repeat split; [|done|by left].
      right. by exists t.
    + destruct (mark_completed_signer _ _ _ _ _ _ _ Hs Hs') as [[_ ->]|[-> ->]];
        [by auto|]. simpl. repeat split; [by left|done|].
      right. by exists t, f.
    + rewrite (mark_voided_signer _ _ _ _ Hs Hs'). simpl.
      repeat split; [by left|done|by left].
  - intros t now2 -> Hok. cbn [handle] in *. by apply get_by_token_twice.
Qed.

End Monotone.

(** ** The creation route *)

Section Creation.

Variables BASE_URL JWT_SECRET : string.

Implicit Types (st : Store) (env : Envelope) (s : Signer) (w : World).

Lemma fresh_id_free st : st !! fresh (dom st) = None.
Proof. apply not_elem_of_dom, is_fresh. Qed.

(** C3, as amended.  When a creation request gets through template
    selection, recipient parsing, file generation and the store writes, the
    envelope is stored under a new id, [SENT], with one [SENT] signer per
    recipient, each holding the link minted for it, and no failure of a send
    removes it from the store.  The response reports the creation only when
    every send succeeded; when a send fails, [sendMail] throws again, the
    route catches it, and the response is 500 "Generation failed" although
    the envelope and its links stay stored. *)
Theorem C3_send_failure_keeps_envelope w st now req :
  stores_envelope BASE_URL w req = true →
  ∃ env,
    st !! fresh (dom st) = None
    ∧ (generate_template BASE_URL JWT_SECRET w st now req).2 = <[fresh (dom st) := env]> st
    ∧ documentStatus env = SENT
    ∧ length (signers env) = length (parseRecipients (body_emails req))
    ∧ (∀ i s, signers env !! i = Some s →
         status s = SENT ∧ sentAt s = Some now
         ∧ rcp_email <$> parseRecipients (body_emails req) !! i = Some (email s)
         ∧ signerUrl s = SignLink BASE_URL (mint JWT_SECRET (fresh (dom st)) (email s) i now))
    ∧ (forallb (λ s, sent (notify w (body_name req) s)) (signers env) = true →
       (generate_template BASE_URL JWT_SECRET w st now req).1
       = json 200 (CreatedBody (fresh (dom st)) (signedUrl env) SENT
                     (map (λ f, (filename f, publicUrl f, mimetype f)) (files env))
                     (map report_of (signers env))))
    ∧ (forallb (λ s, sent (notify w (body_name req) s)) (signers env) = false →
       (generate_template BASE_URL JWT_SECRET w st now req).1
       = json 500 (ErrorBody "Generation failed")).
Proof.
  unfold stores_envelope, generate_template.
  destruct (selected_templates (body_templates req)) as [[|t ts]|]; try done.
  destruct (parseRecipients (body_emails req)) as [|r rs] eqn:Hrs; [done|].
  destruct (generate_files BASE_URL w 0 (t :: ts)) as [[|f fl]|]; try done.
  intros [-> ->]%andb_true_iff.
  set (id := fresh (dom st)).
  set (sg := imap _ (map (new_signer now (body_name req)) (r :: rs))).
  set (first := match sg with [] => NoLink | x :: _ => signerUrl x end).
  exists (mkEnvelope sg SENT (f :: fl) EmptyString EmptyString first).
  cbn [signers documentStatus files signedUrl].
  split; [apply fresh_id_free|].
  split; [by destruct (forallb _ sg)|]. split; [done|].
  split; [subst sg; by rewrite length_imap, length_map|].
  split.
  - intros i s. subst sg. rewrite list_lookup_imap.
    change (map ?g ?l) with (g <$> l). rewrite !list_lookup_fmap.
    destruct ((r :: rs) !! i) as [r0|]; [|done]. cbn. by intros [= <-].
  - by destruct (forallb _ sg).
Qed.

Lemma generate_files_none_exist w k (selected : list JSON) names :
  all_of (map toString selected) = Some names →
  Forall (λ t, tpl_exists w t = false) names →
  generate_files BASE_URL w k selected = Some [].
Proof.
  revert k names. induction selected as [|item r IH]; intros k names; [done|].
  cbn [map all_of generate_files]. destruct (toString item) as [t|]; [|done].
  destruct (all_of (map toString r)) as [names'|] eqn:Hr; [|done].
  intros [= <-] [Ht Hall]%Forall_cons. rewrite Ht. by eapply IH.
Qed.

(** C9, as amended.  The creation route rejects a request before it stores
    anything: with 400 "Select at least one template" when no template is
    selected; with 400 "Provide at least one valid recipient email" when
    templates are selected and no recipient is valid; and with 404 "No
    templates found", not 400, when templates are selected, a recipient is
    valid and none of the selected templates has a file. *)
Theorem C9_creation_rejects w st now req :
  (selected_templates (body_templates req) = None
   ∨ selected_templates (body_templates req) = Some [] →
   generate_template BASE_URL JWT_SECRET w st now req
   = (json 400 (ErrorBody "Select at least one template"), st))
  ∧ (∀ t ts,
       selected_templates (body_templates req) = Some (t :: ts) →
       parseRecipients (body_emails req) = [] →
       generate_template BASE_URL JWT_SECRET w st now req
       = (json 400 (ErrorBody "Provide at least one valid recipient email"), st))
  ∧ (∀ t ts names,
       selected_templates (body_templates req) = Some (t :: ts) →
       parseRecipients (body_emails req) ≠ [] →
       all_of (map toString (t :: ts)) = Some names →
       Forall (λ n, tpl_exists w n = false) names →
       generate_template BASE_URL JWT_SECRET w st now req
       = (json 404 (ErrorBody "No templates found"), st)).
Proof.
  unfold generate_template. split; [|split].
  - by intros [->| ->].
  - intros t ts -> Hnone. by rewrite Hnone.
  - intros t ts names -> Hsome Hnames Hfiles.
    destruct (parseRecipients (body_emails req)) as [|r rs]; [done|].
    by rewrite (generate_files_none_exist w 0 (t :: ts) names Hnames Hfiles).
Qed.

(** ** Tokens *)

(** C6.  A token minted for an envelope id, an email and an index verifies,
    at any time, to exactly these three, and the routes address the signer
    at that index. *)
Theorem C6_minted_token_round_trip (id : nat) (mail : string) (i : nat) (now now' : Z) :
  verifyJWT JWT_SECRET (Some (Encoded (mint JWT_SECRET id mail i now))) now'
  = inr (mkAuth (Some id) (Some mail) (Some (Z.of_nat i)))
  ∧ ∀ env, signer_index (mkAuth (Some id) (Some mail) (Some (Z.of_nat i))) env = Z.of_nat i.
Proof.
  split; [|done]. unfold verifyJWT, jwt_verify, mint, jwt_sign. cbn.
  by rewrite String.eqb_refl.
Qed.

(** C4, on the code.  The creation route signs without [expireTime]: the
    token it mints has no expiry, so the signing page and the middleware
    accept it at every time; signed with [expireTime], five minutes, the
    same payload would be refused from 300 seconds after its issue. *)
Theorem C4_minted_token_never_expires (id : nat) (mail : string) (i : nat) (now now' : Z) :
  jwt_exp (mint JWT_SECRET id mail i now) = None
  ∧ sign_page JWT_SECRET (Encoded (mint JWT_SECRET id mail i now)) now'
    = json 200 (PageBody "web/sign.html")
  ∧ verifyJWT JWT_SECRET (Some (Encoded (mint JWT_SECRET id mail i now))) now'
    = inr (mkAuth (Some id) (Some mail) (Some (Z.of_nat i)))
  ∧ ((now / 1000 + 300 ≤ now' / 1000)%Z →
     jwt_verify
       (Encoded (jwt_sign (jwt_payload (mint JWT_SECRET id mail i now)) JWT_SECRET
                   expireTime now)) JWT_SECRET now'
     = inl TokenExpiredError).
Proof.
  unfold sign_page, verifyJWT, jwt_verify, mint, jwt_sign. cbn.
  rewrite String.eqb_refl. repeat split.
  intros Hlate. destruct (_ >=? _)%Z eqn:Hge; [done|].
  rewrite Z.geb_leb in Hge. apply Z.leb_gt in Hge. lia.
Qed.

End Creation.

(** ** The scenario, evaluated *)

Section Evaluated.

Import Scenario.

(** C1, on the code.  Signer [a] opens the link and signer [b] then
    uploads without having opened: the signers are [DELIVERED] and
    [COMPLETED], for which the specification derives [DELIVERED], and the
    envelope is still [SENT], because the complete route only looks for
    "all completed".  The same two requests in the other order end in the
    same signer statuses with the envelope [DELIVERED]: the read route does
    make the check, so the envelope status is not a function of the signer
    statuses. *)
Theorem C1_completion_leaves_envelope_sent :
  statuses (after [a_opens; b_signs]) = [DELIVERED; COMPLETED]
  ∧ documentStatus (stored (after [a_opens; b_signs])) = SENT
  ∧ Spec.recompute (statuses (after [a_opens; b_signs])) = DELIVERED
  ∧ statuses (after [b_signs; a_opens]) = [DELIVERED; COMPLETED]
  ∧ documentStatus (stored (after [b_signs; a_opens])) = DELIVERED.
Proof. vm_compute. repeat split. Qed.


(** C8 fails as stated: a second upload of signer [a] replaces the
    [completedAt] of the first. *)
Lemma C8_second_upload_restamps : ¬ Claimed.completedAt_kept.
Proof.
  intros H.
  pose proof (H base secret (after [a_signs]) 9000%Z (snd a_signs_again) 0
                (stored (after [a_signs])) (stored (after [a_signs; a_signs_again])) 0
                (signer_at (after [a_signs]) 0)
                (signer_at (after [a_signs; a_signs_again]) 0)) as Hc.
  vm_compute in Hc.
  specialize (Hc eq_refl eq_refl eq_refl eq_refl (ex_intro _ _ eq_refl)). discriminate.
Qed.

(** C3 fails as stated: with the mail provider down the envelope is stored
    and the response is 500. *)
Lemma C3_mail_down_answers_500 : ¬ Claimed.creation_reported.
Proof.
  intros H. specialize (H base secret mail_down ∅ 5000%Z request eq_refl).
  vm_compute in H. discriminate.
Qed.

(** C5, on the code.  An [{email, name}] object is rendered by the parser
    as [name <email>] and read again with a pattern whose first group does
    not cross a line break, so an object whose name has a line break is
    lost: the input holds one valid email and the parser returns nothing,
    while the same object with a space in the place of the line break gives
    its recipient.  A string [Name <email>] with a line break in the name is
    lost in the same way.  On a delimited list with a repeated email, an
    entry that is no email and empty entries the parser does return the
    distinct valid emails, first occurrences in order.  So the parser does
    not return one entry per distinct valid email of every input. *)
Theorem C5_line_break_in_name_drops_entry :
  Spec.distinct_valid_emails two_line_name = ["a@x.com"]
  ∧ parseRecipients two_line_name = []
  ∧ Spec.distinct_valid_emails one_line_name = ["a@x.com"]
  ∧ parseRecipients one_line_name = [mkRecipient "a@x.com" "Ann Lee"]
  ∧ Spec.distinct_valid_emails two_line_text = ["a@x.com"]
  ∧ parseRecipients two_line_text = []
  ∧ Spec.distinct_valid_emails mixed_list = ["a@x.com"; "b@x.com"; "c@y.org"]
  ∧ parseRecipients mixed_list
    = [mkRecipient "a@x.com" ""; mkRecipient "b@x.com" "Bob"; mkRecipient "c@y.org" ""]
  ∧ ¬ Claimed.one_entry_per_email.
Proof.
  repeat (split; [vm_compute; reflexivity|]).
  intros H. specialize (H two_line_name). vm_compute in H. discriminate.
Qed.

(** C9 fails as stated: where no selected template has a file the answer
    is 404, not 400. *)
Lemma C9_missing_files_answer_404 : ¬ Claimed.rejected_with_400.
Proof.
  intros H.
  destruct (H base secret no_template ∅ 5000%Z request) as [Hcode _].
  - right; right; right. exists [JString "nda"], ["nda"].
    split; [reflexivity|]. split; [reflexivity|]. by repeat constructor.
  - vm_compute in Hcode. discriminate.
Qed.

End Evaluated.

(** ** The theorems at the scenario *)

Section Instances.

Import Scenario.

(** C7 at an envelope with one signer [COMPLETED] and one [SENT]. *)
Lemma C7_cancel_completed_and_sent :
  statuses (after [a_signs]) = [COMPLETED; SENT]
  ∧ (cancel secret (after [a_signs]) 8000%Z (link 0 "a@x.com")).2 !! 0
    = Some (mark_voided (stored (after [a_signs])))
  ∧ documentStatus (mark_voided (stored (after [a_signs]))) = VOIDED
  ∧ Forall (λ s, status s = VOIDED) (signers (mark_voided (stored (after [a_signs])))).
Proof.
  split; [vm_compute; reflexivity|].
  assert (verifyJWT secret (link 0 "a@x.com") 8000%Z
          = inr (mkAuth (Some 0) (Some "a@x.com") (Some 0%Z))) as Hauth
    by (vm_compute; reflexivity).
  assert (after [a_signs] !! 0 = Some (stored (after [a_signs]))) as Henv
    by (vm_compute; reflexivity).
  destruct (C7_cancel_voids_everything secret (after [a_signs]) 8000%Z
              (link 0 "a@x.com") _ 0 _ Hauth eq_refl Henv)
    as (_ & Hstore & Hdoc & Hall & _).
  exact (conj Hstore (conj Hdoc Hall)).
Defined.

(** C10 at a cancelled envelope: signer [b], voided, uploads after signer
    [a] did, and the envelope ends [COMPLETED]. *)
Lemma C10_cancelled_envelope_completes :
  documentStatus (stored (after [a_cancels; a_signs])) = VOIDED
  ∧ status (signer_at (after [a_cancels; a_signs]) 1) = VOIDED
  ∧ code (complete base secret (after [a_cancels; a_signs]) 7500%Z (link 1 "b@x.com")
            (PdfFile "7500-300000.pdf")).1 = 200
  ∧ documentStatus
      (mark_completed 7500%Z (base +:+ "/storage/signed/" +:+ "7500-300000.pdf") 1
         (stored (after [a_cancels; a_signs]))) = COMPLETED.
Proof.
  split; [vm_compute; reflexivity|]. split; [vm_compute; reflexivity|].
  assert (verifyJWT secret (link 1 "b@x.com") 7500%Z
          = inr (mkAuth (Some 0) (Some "b@x.com") (Some 1%Z))) as Hauth
    by (vm_compute; reflexivity).
  assert (after [a_cancels; a_signs] !! 0 = Some (stored (after [a_cancels; a_signs])))
    as Henv by (vm_compute; reflexivity).
  assert (signers (stored (after [a_cancels; a_signs])) !! 1
          = Some (signer_at (after [a_cancels; a_signs]) 1)) as Hs
    by (vm_compute; reflexivity).
  destruct (C10_complete_ignores_state base secret (after [a_cancels; a_signs]) 7500%Z
              (link 1 "b@x.com") "7500-300000.pdf" _ 0 _ 1 _ Hauth eq_refl Henv eq_refl Hs)
    as (Hrun & _ & _ & _ & Hall & _).
  split; [by rewrite Hrun|].
  apply Hall. vm_compute. repeat constructor.
Defined.


(** C8 at the first read of signer [a]: the read stamps [deliveredAt], and
    a second read at a later time leaves the store alone. *)
Lemma C8_first_and_second_read :
  deliveredAt (signer_at created 0) = None
  ∧ (deliveredAt (signer_at (after [a_opens]) 0) = deliveredAt (signer_at created 0)
     ∨ (∃ t, snd a_opens = GetByToken t ∧ status (signer_at created 0) = SENT
          ∧ status (signer_at (after [a_opens]) 0) = DELIVERED
          ∧ deliveredAt (signer_at (after [a_opens]) 0) = Some 6000%Z))
  ∧ (get_by_token secret (handle base secret created 6000%Z (snd a_opens)).2 9000%Z
       (link 0 "a@x.com")).2
    = (handle base secret created 6000%Z (snd a_opens)).2.
Proof.
  split; [vm_compute; reflexivity|].
  assert (created !! 0 = Some (stored created)) as Henv by (vm_compute; reflexivity).
  assert ((handle base secret created 6000%Z (snd a_opens)).2 !! 0
          = Some (stored (after [a_opens]))) as Henv' by (vm_compute; reflexivity).
  destruct (C8_timestamp_steps base secret _ _ _ _ _ _ Henv Henv') as (Hstep & Htwice).
  assert (signers (stored created) !! 0 = Some (signer_at created 0)) as Hs
    by (vm_compute; reflexivity).
  assert (signers (stored (after [a_opens])) !! 0 = Some (signer_at (after [a_opens]) 0))
    as Hs' by (vm_compute; reflexivity).
  destruct (Hstep 0 _ _ Hs Hs') as (_ & Hdelivered & _).
  split; [exact Hdelivered|].
  apply (Htwice (link 0 "a@x.com") 9000%Z eq_refl). vm_compute. reflexivity.
Defined.

(** C3 with the mail provider down: the envelope is stored with its two
    signers and the response is 500. *)
Lemma C3_mail_down_envelope_stored :
  stores_envelope base mail_down request = true
  ∧ ∃ env,
      (generate_template base secret mail_down ∅ 5000%Z request).2 = <[0 := env]> ∅
      ∧ documentStatus env = SENT
      ∧ length (signers env) = 2
      ∧ (generate_template base secret mail_down ∅ 5000%Z request).1
        = json 500 (ErrorBody "Generation failed").
Proof.
  split; [vm_compute; reflexivity|].
  destruct (C3_send_failure_keeps_envelope base secret mail_down ∅ 5000%Z request eq_refl)
    as (env & _ & Hstore & Hdoc & Hlen & _ & _ & Hfail).
  exists env. split; [exact Hstore|]. split; [exact Hdoc|]. split; [exact Hlen|].
  apply Hfail. clear Hfail. unfold notify, sendMail. cbn [mail_down axios_post sent].
  destruct (signers env) as [|s l]; [discriminate Hlen|reflexivity].
Defined.

(** C9 where no template file exists: 404, nothing stored. *)
Lemma C9_no_template_file :
  parseRecipients (body_emails request) ≠ []
  ∧ generate_template base secret no_template ∅ 5000%Z request
    = (json 404 (ErrorBody "No templates found"), ∅).
Proof.
  assert (parseRecipients (body_emails request) ≠ []) as Hsome
    by (vm_compute; discriminate).
  split; [exact Hsome|].
  destruct (C9_creation_rejects base secret no_template ∅ 5000%Z request)
    as (_ & _ & Hfiles).
  apply (Hfiles (JString "nda") [] ["nda"]); [reflexivity|exact Hsome|reflexivity|].
  by repeat constructor.
Defined.

End Instances.

(** ** Errors of the token routes *)

Section RouteErrors.

Variables BASE_URL JWT_SECRET : string.

Implicit Types (st : Store) (env : Envelope) (s : Signer) (a : Auth) (r : Request).

Lemma verifyJWT_refused token now e :
  verifyJWT JWT_SECRET token now = inl e → code e = 401.
Proof.
  unfold verifyJWT. destruct token as [t|]; [|by intros [= <-]].
  destruct (jwt_verify t JWT_SECRET now); [by intros [= <-]|done].
Qed.

Lemma verifyJWT_refused_iff token now :
  (∃ e, verifyJWT JWT_SECRET token now = inl e) ↔
  token = None ∨ token = Some Unreadable
  ∨ ∃ t, token = Some (Encoded t)
      ∧ (jwt_signed_with t ≠ JWT_SECRET ∨ ∃ e, jwt_exp t = Some e ∧ (e ≤ now / 1000)%Z).
Proof.
  unfold verifyJWT, jwt_verify. destruct token as [[|t]|].
  - split; [by auto|]. intros _. by eexists.
  - destruct (String.eqb (jwt_signed_with t) JWT_SECRET) eqn:Hk.
    + apply String.eqb_eq in Hk. destruct (jwt_exp t) as [x|] eqn:Hx.
      * destruct (now / 1000 >=? x)%Z eqn:Hge.
        -- split; [|intros _; by eexists]. intros _. right; right.
           exists t. split; [done|]. right. exists x. split; [done|].
           rewrite Z.geb_leb in Hge. by apply Z.leb_le.
        -- split; [by intros [? ?]|].
           rewrite Z.geb_leb in Hge. apply Z.leb_gt in Hge.
           intros [?|[?|(t' & [= <-] & [?|(y & Hy & ?)])]]; try done.
           rewrite Hx in Hy. injection Hy as <-. lia.
      * split; [by intros [? ?]|].
        intros [?|[?|(t' & [= <-] & [?|(y & Hy & ?)])]]; try done.
        by rewrite Hx in Hy.
    + apply String.eqb_neq in Hk. split; [|intros _; by eexists].
      intros _. right; right. exists t. auto.
  - split; [by auto|]. intros _. by eexists.
Qed.

Lemma handle_refused st now r e :
  verifyJWT JWT_SECRET (request_token r) now = inl e →
  handle BASE_URL JWT_SECRET st now r = (e, st).
Proof.
  destruct r as [t|t f|t]; cbn [request_token handle]; intros H.
  - unfold get_by_token. by rewrite H.
  - unfold complete. by rewrite H.
  - unfold cancel. by rewrite H.
Qed.

Lemma handle_admitted_code st now r a :
  verifyJWT JWT_SECRET (request_token r) now = inr a →
  code (handle BASE_URL JWT_SECRET st now r).1 ≠ 401.
Proof.
  destruct r as [t|t f|t]; cbn [request_token handle]; intros H.
  - unfold get_by_token. rewrite H.
    destruct (req_envId a); cbn [findById mbind option_bind]; [|done].
    destruct (st !! _); [|done]. destruct (out_of_range _ _); [done|].
    by destruct (signers _ !! _).
  - unfold complete. rewrite H. destruct f; try done.
    destruct (req_envId a); cbn [findById mbind option_bind]; [|done].
    destruct (st !! _); [|done]. destruct (out_of_range _ _); [done|].
    by destruct (signers _ !! _).
  - unfold cancel. rewrite H.
    destruct (req_envId a); cbn [findById mbind option_bind]; [|done].
    by destruct (st !! _).
Qed.

(** X1.  A token route answers 401 exactly when the token is missing, does
    not decode, carries the signature of another secret, or has an expiry
    that has passed; it then leaves the store as it was. *)
Theorem X1_unauthorised_iff st now r :
  (code (handle BASE_URL JWT_SECRET st now r).1 = 401 ↔
   request_token r = None ∨ request_token r = Some Unreadable
   ∨ ∃ t, request_token r = Some (Encoded t)
       ∧ (jwt_signed_with t ≠ JWT_SECRET
          ∨ ∃ e, jwt_exp t = Some e ∧ (e ≤ now / 1000)%Z))
  ∧ (code (handle BASE_URL JWT_SECRET st now r).1 = 401 →
     (handle BASE_URL JWT_SECRET st now r).2 = st).
Proof.
  rewrite <- verifyJWT_refused_iff.
  destruct (verifyJWT JWT_SECRET (request_token r) now) as [e|a] eqn:Hv.
  - rewrite (handle_refused _ _ _ _ Hv). cbn [fst snd]. split; [|done].
    split; [by eauto|]. intros _. by eapply verifyJWT_refused.
  - pose proof (handle_admitted_code st _ _ _ Hv) as Hne. split; [|done].
    split; [done|]. by intros [? ?].
Qed.

(** X2.  With an accepted token that names no stored envelope, a read, an
    upload of a PDF and a cancel all answer 404 and leave the store as it
    was. *)
Theorem X2_unknown_envelope st now r a :
  verifyJWT JWT_SECRET (request_token r) now = inr a →
  findById (req_envId a) st = None →
  (∀ t f, r = PostComplete t f → ∃ stored, f = PdfFile stored) →
  handle BASE_URL JWT_SECRET st now r = (json 404 (ErrorBody "Envelope not found"), st).
Proof.
  intros Hv Hnone Hpdf.
  destruct r as [t|t f|t]; cbn [request_token handle] in *.
  - unfold get_by_token. rewrite Hv, Hnone. by destruct (req_envId a).
  - destruct (Hpdf t f eq_refl) as [stored ->].
    unfold complete. rewrite Hv, Hnone. by destruct (req_envId a).
  - unfold cancel. rewrite Hv, Hnone. by destruct (req_envId a).
Qed.

(** X3.  With an accepted token whose signer does not resolve in the
    envelope (an index out of range, or no index and no signer with the
    token's email), a read and an upload answer 400 and change nothing,
    while a cancel does not look at the signer and voids the envelope. *)
Theorem X3_unresolved_signer st now token a id env :
  verifyJWT JWT_SECRET token now = inr a →
  req_envId a = Some id →
  st !! id = Some env →
  out_of_range (signer_index a env) env = true →
  get_by_token JWT_SECRET st now token
    = (json 400 (ErrorBody "Signer not found in envelope"), st)
  ∧ (∀ stored, complete BASE_URL JWT_SECRET st now token (PdfFile stored)
       = (json 400 (ErrorBody "Signer not found in envelope"), st))
  ∧ cancel JWT_SECRET st now token
    = (json 200 (CancelledBody id), <[id := mark_voided env]> st).
Proof.
  intros Hv Hid Henv Hout. unfold get_by_token, complete, cancel.
  rewrite Hv, Hid. cbn [findById mbind option_bind]. by rewrite Henv, Hout.
Qed.

End RouteErrors.

(** ** What the token routes leave alone *)

Section Frame.

Variables BASE_URL JWT_SECRET : string.

Implicit Types (st : Store) (env : Envelope) (s : Signer) (a : Auth) (r : Request).

(** A request leaves the store as it was or replaces the envelope its token
    names. *)
Lemma handle_store st now r :
  (handle BASE_URL JWT_SECRET st now r).2 = st
  ∨ ∃ a id env env',
      verifyJWT JWT_SECRET (request_token r) now = inr a
      ∧ req_envId a = Some id ∧ st !! id = Some env
      ∧ (handle BASE_URL JWT_SECRET st now r).2 = <[id := env']> st.
Proof.
  destruct r as [t|t f|t]; cbn [handle request_token].
  - unfold get_by_token. destruct (verifyJWT JWT_SECRET t now) as [e|a] eqn:Hv; [by left|].
    destruct (req_envId a) as [k|] eqn:Hk; cbn [findById mbind option_bind]; [|by left].
    destruct (st !! k) as [env|] eqn:Henv; [|by left].
    destruct (out_of_range _ _); [by left|].
    destruct (signers _ !! _); [|by left]. right. by eexists a, k, env, _.
  - unfold complete. destruct (verifyJWT JWT_SECRET t now) as [e|a] eqn:Hv; [by left|].
    destruct f as [| |stored]; [by left..|].
    destruct (req_envId a) as [k|] eqn:Hk; cbn [findById mbind option_bind]; [|by left].
    destruct (st !! k) as [env|] eqn:Henv; [|by left].
    destruct (out_of_range _ _); [by left|].
    destruct (signers _ !! _); [|by left]. right. by eexists a, k, env, _.
  - unfold cancel. destruct (verifyJWT JWT_SECRET t now) as [e|a] eqn:Hv; [by left|].
    destruct (req_envId a) as [k|] eqn:Hk; cbn [findById mbind option_bind]; [|by left].
    destruct (st !! k) as [env|] eqn:Henv; [|by left].
    right. by eexists a, k, env, _.
Qed.

Lemma handle_dom st now r :
  dom (handle BASE_URL JWT_SECRET st now r).2 = dom st.
Proof.
  destruct (handle_store st now r) as [->|(a & id & env & env' & _ & _ & Henv & ->)];
    [done|].
  apply dom_insert_lookup_L. by eexists.
Qed.

(** X4.  A token route neither adds nor removes an envelope, and the only
    envelope it can change is the one its token names. *)
Theorem X4_other_envelopes_untouched st now r :
  dom (handle BASE_URL JWT_SECRET st now r).2 = dom st
  ∧ ∀ id, (∀ a, verifyJWT JWT_SECRET (request_token r) now = inr a →
                req_envId a ≠ Some id) →
          (handle BASE_URL JWT_SECRET st now r).2 !! id = st !! id.
Proof.
  split; [apply handle_dom|]. intros id Hother.
  destruct (handle_store st now r) as [->|(a & k & env & env' & Hv & Hk & _ & ->)];
    [done|].
  apply lookup_insert_ne. intros ->. by apply (Hother a).
Qed.

Lemma fmap_insert_same {A B} (f : A → B) (l : list A) (i : nat) (x y : A) :
  l !! i = Some x → f y = f x → f <$> <[i := y]> l = f <$> l.
Proof.
  intros Hx Hf. rewrite list_fmap_insert, Hf.
  apply list_insert_id. by rewrite list_lookup_fmap, Hx.
Qed.

Lemma mark_delivered_keeps {B} (f : Signer → B) now idx env :
  (∀ s x dl, f (mkSigner (email s) (name s) x (sentAt s) dl (completedAt s)
                   (signerUrl s)) = f s) →
  f <$> signers (mark_delivered now idx env) = f <$> signers env.
Proof.
  intros Hf. unfold mark_delivered.
  destruct (signers env !! idx) as [s|] eqn:Hs; [|done].
  case_bool_decide; [|done]. cbn [signers]. by eapply fmap_insert_same.
Qed.

Lemma mark_completed_keeps {B} (f : Signer → B) now url idx env :
  (∀ s x cp, f (mkSigner (email s) (name s) x (sentAt s) (deliveredAt s) cp
                   (signerUrl s)) = f s) →
  f <$> signers (mark_completed now url idx env) = f <$> signers env.
Proof.
  intros Hf. unfold mark_completed.
  destruct (signers env !! idx) as [s|] eqn:Hs; [|done].
  cbn [signers]. by eapply fmap_insert_same.
Qed.

Lemma mark_voided_keeps {B} (f : Signer → B) env :
  (∀ s, f (void_signer s) = f s) →
  f <$> signers (mark_voided env) = f <$> signers env.
Proof.
  intros Hf. cbn [mark_voided signers]. change (map void_signer ?l) with (void_signer <$> l).
  rewrite <- list_fmap_compose. apply list_fmap_ext. intros _ s _. apply Hf.
Qed.

(** What a request keeps of a signer: who it is, and its link. *)
Lemma handle_keeps {B} (f : Signer → B) st now r id env env' :
  (∀ s x dl cp, f (mkSigner (email s) (name s) x (sentAt s) dl cp (signerUrl s))
                 = f s) →
  st !! id = Some env →
  (handle BASE_URL JWT_SECRET st now r).2 !! id = Some env' →
  f <$> signers env' = f <$> signers env.
Proof.
  intros Hf Henv Henv'.
  destruct (handle_cases _ _ _ _ _ _ _ _ Henv Henv')
    as [->|[(t & idx & -> & _ & ->)|[(t & fl & idx & -> & _ & ->)|(t & -> & ->)]]].
  - done.
  - apply mark_delivered_keeps. intros [] ??. apply Hf.
  - apply mark_completed_keeps. intros [] ??. apply Hf.
  - apply mark_voided_keeps. intros []. apply Hf.
Qed.

(** X5.  No token route changes who the signers of an envelope are: their
    order, emails, names and links stay, and so do the files, the [pdf]
    field and the envelope's own link; [signedPdf] changes only by an
    upload. *)
Theorem X5_signers_stay st now r id env env' :
  st !! id = Some env →
  (handle BASE_URL JWT_SECRET st now r).2 !! id = Some env' →
  email <$> signers env' = email <$> signers env
  ∧ name <$> signers env' = name <$> signers env
  ∧ signerUrl <$> signers env' = signerUrl <$> signers env
  ∧ files env' = files env
  ∧ pdf env' = pdf env
  ∧ signedUrl env' = signedUrl env
  ∧ ((∀ t f, r ≠ PostComplete t f) → signedPdf env' = signedPdf env).
Proof.
  intros Henv Henv'.
  split; [by eapply (handle_keeps email)|].
  split; [by eapply (handle_keeps name)|].
  split; [by eapply (handle_keeps signerUrl)|].
  destruct (handle_cases _ _ _ _ _ _ _ _ Henv Henv')
    as [->|[(t & idx & -> & _ & ->)|[(t & fl & idx & -> & _ & ->)|(t & -> & ->)]]].
  - done.
  - unfold mark_delivered. destruct (signers env !! idx); [|done].
    by case_bool_decide.
  - unfold mark_completed. destruct (signers env !! idx); [|done].
    cbn. repeat split. intros Hno. by destruct (Hno t (PdfFile fl)).
  - done.
Qed.

End Frame.

(** ** The invariant of the stored envelopes *)

Section Invariant.

Variables BASE_URL JWT_SECRET : string.

Implicit Types (st : Store) (env : Envelope) (s : Signer) (l : list Signer).

Lemma forallb_lookup {A} (p : A → bool) (xs : list A) i x :
  forallb p xs = true → xs !! i = Some x → p x = true.
Proof.
  rewrite forallb_Forall. intros HF Hx. by eapply (Forall_lookup_1 _ _ _ _ HF).
Qed.

Lemma forallb_insert {A} (p : A → bool) (xs : list A) i x :
  forallb p xs = true → p x = true → forallb p (<[i := x]> xs) = true.
Proof. rewrite !forallb_Forall. intros HF Hx. by apply Forall_insert. Qed.

Lemma forallb_insert_false {A} (p : A → bool) (xs : list A) i x :
  i < length xs → p x = false → forallb p (<[i := x]> xs) = false.
Proof.
  intros Hi Hx. destruct (forallb p (<[i := x]> xs)) eqn:HF; [|done].
  rewrite (forallb_lookup _ _ i x HF) in Hx; [done|].
  by apply list_lookup_insert_eq.
Qed.

Lemma forallb_false_lookup {A} (p : A → bool) (xs : list A) i x :
  xs !! i = Some x → p x = false → forallb p xs = false.
Proof.
  intros Hx Hp. destruct (forallb p xs) eqn:HF; [|done].
  by rewrite (forallb_lookup _ _ _ _ HF Hx) in Hp.
Qed.

Lemma insert_not_nil {A} (xs : list A) i x :
  match xs with [] => false | _ :: _ => true end = true →
  match <[i := x]> xs with [] => false | _ :: _ => true end = true.
Proof. destruct xs; [done|]. by destruct i. Qed.

Lemma mark_delivered_well_formed now idx env :
  well_formed env = true → well_formed (mark_delivered now idx env) = true.
Proof.
  intros Hwf. unfold mark_delivered.
  destruct (signers env !! idx) as [s|] eqn:Hs; [|done].
  case_bool_decide as Hsent; [|done].
  unfold well_formed in *. cbn [signers documentStatus].
  apply andb_true_iff in Hwf as [[Hne Hst]%andb_true_iff Hdoc].
  pose proof (forallb_lookup _ _ _ _ Hst Hs) as Hs_ok.
  pose proof (lookup_lt_Some _ _ _ Hs) as Hlt.
  set (s' := mkSigner _ _ DELIVERED _ _ _ _).
  assert (stamped s' = true) as Hs'.
  { unfold stamped in *. rewrite Hsent in Hs_ok. subst s'. simpl.
    destruct (is_set (sentAt s)); [|done]. simpl in *.
    by destruct (is_set (deliveredAt s)), (is_set (completedAt s)). }
  rewrite insert_not_nil, forallb_insert by done. cbn [andb].
  assert (forallb is_completed (<[idx := s']> (signers env)) = false) as Hnc
    by by apply forallb_insert_false.
  destruct (forallb delivered_or_completed (<[idx := s']> (signers env))) eqn:Hdc.
  { by rewrite Hnc. }
  rewrite Hnc.
  assert (delivered_or_completed s = false) as Hd
    by (unfold delivered_or_completed; rewrite Hsent; done).
  assert (voided_or_completed s = false) as Hv
    by (unfold voided_or_completed; rewrite Hsent; done).
  assert (is_completed s = false) as Hc
    by (unfold is_completed; rewrite Hsent; done).
  destruct (documentStatus env); try done.
  - by rewrite (forallb_false_lookup _ _ _ _ Hs Hd) in Hdoc.
  - by rewrite (forallb_false_lookup _ _ _ _ Hs Hc) in Hdoc.
  - by rewrite (forallb_false_lookup _ _ _ _ Hs Hv) in Hdoc.
Qed.

Lemma mark_completed_well_formed now url idx env :
  well_formed env = true → well_formed (mark_completed now url idx env) = true.
Proof.
  intros Hwf. unfold mark_completed.
  destruct (signers env !! idx) as [s|] eqn:Hs; [|done].
  unfold well_formed in *. cbn [signers documentStatus].
  apply andb_true_iff in Hwf as [[Hne Hst]%andb_true_iff Hdoc].
  pose proof (forallb_lookup _ _ _ _ Hst Hs) as Hs_ok.
  set (s' := mkSigner _ _ COMPLETED _ _ _ _).
  assert (stamped s' = true) as Hs'.
  { unfold stamped in *. subst s'. simpl.
    by destruct (is_set (sentAt s)). }
  rewrite insert_not_nil, forallb_insert by done. cbn [andb].
  destruct (forallb is_completed (<[idx := s']> (signers env))) eqn:Hall; [done|].
  destruct (documentStatus env); try done.
  - apply andb_true_iff in Hdoc as [Hd _].
    by rewrite forallb_insert.
  - by rewrite forallb_insert in Hall.
  - apply andb_true_iff in Hdoc as [Hv _].
    by rewrite forallb_insert.
Qed.

Lemma mark_voided_well_formed env :
  well_formed env = true → well_formed (mark_voided env) = true.
Proof.
  unfold well_formed. cbn [mark_voided signers documentStatus].
  intros [[Hne Hst]%andb_true_iff _]%andb_true_iff.
  destruct (signers env) as [|s l]; [done|]. cbn [map forallb] in *.
  apply andb_true_iff in Hst as [Hs Hl].
  assert (stamped (void_signer s) = true) as ->.
  { unfold stamped in *. simpl. by destruct (is_set (sentAt s)). }
  assert (forallb stamped (map void_signer l) = true) as ->.
  { clear -Hl. induction l as [|x l IH]; [done|]. cbn [map forallb] in *.
    apply andb_true_iff in Hl as [Hx Hl]. rewrite IH by done.
    unfold stamped in *. simpl. by destruct (is_set (sentAt x)). }
  assert (forallb voided_or_completed (map void_signer l) = true) as ->.
  { clear. by induction l as [|x l IH]. }
  done.
Qed.

(** One request keeps a well-formed envelope well-formed. *)
Lemma handle_well_formed st now r id env env' :
  st !! id = Some env →
  (handle BASE_URL JWT_SECRET st now r).2 !! id = Some env' →
  well_formed env = true → well_formed env' = true.
Proof.
  intros Henv Henv' Hwf.
  destruct (handle_cases _ _ _ _ _ _ _ _ Henv Henv')
    as [->|[(t & idx & -> & _ & ->)|[(t & fl & idx & -> & _ & ->)|(t & -> & ->)]]].
  - done.
  - by apply mark_delivered_well_formed.
  - by apply mark_completed_well_formed.
  - by apply mark_voided_well_formed.
Qed.

Lemma handle_lookup_Some st now r id env :
  st !! id = Some env →
  ∃ env', (handle BASE_URL JWT_SECRET st now r).2 !! id = Some env'.
Proof.
  intros Henv. apply elem_of_dom. rewrite handle_dom. apply elem_of_dom. by eexists.
Qed.

(** X6.  Through any run of token requests, at any times and with any
    tokens, a stored envelope that is well-formed stays stored and
    well-formed: its status is [COMPLETED] exactly when every signer is,
    [DELIVERED] or [VOIDED] only when its signers allow it, and every
    signer's stamps agree with its status. *)
Theorem X6_run_keeps_well_formed st rs id env :
  st !! id = Some env →
  well_formed env = true →
  ∃ env', run BASE_URL JWT_SECRET st rs !! id = Some env' ∧ well_formed env' = true.
Proof.
  revert st env. induction rs as [|[now r] rs IH]; intros st env Henv Hwf.
  - exists env. by split.
  - cbn [run]. destruct (handle_lookup_Some st now r id env Henv) as [env1 Henv1].
    apply (IH _ env1 Henv1).
    exact (handle_well_formed st now r id env env1 Henv Henv1 Hwf).
Qed.

End Invariant.

(** ** What the creation route stores *)

Section Created.

Variables BASE_URL JWT_SECRET : string.

Implicit Types (st : Store) (env : Envelope) (s : Signer) (w : World).

(** The three ways a creation ends: nothing stored and an error; the
    envelope created but its links not saved, and 500; the envelope stored
    with its links, and 200 or, when a send failed, 500. *)
Lemma generate_template_cases w st now req :
  ((generate_template BASE_URL JWT_SECRET w st now req).2 = st
   ∧ code (generate_template BASE_URL JWT_SECRET w st now req).1 ≠ 200
   ∧ stores_envelope BASE_URL w req = false)
  ∨ (∃ fl, fl ≠ [] ∧ parseRecipients (body_emails req) ≠ []
      ∧ create_ok w = true
      ∧ stores_envelope BASE_URL w req = false
      ∧ generate_template BASE_URL JWT_SECRET w st now req
        = (generation_failed,
           <[fresh (dom st) :=
               mkEnvelope (fresh_signers now (body_name req)
                             (parseRecipients (body_emails req)))
                 SENT fl EmptyString EmptyString NoLink]> st))
  ∨ (∃ fl, fl ≠ [] ∧ parseRecipients (body_emails req) ≠ []
      ∧ create_ok w = true
      ∧ stores_envelope BASE_URL w req = true
      ∧ (generate_template BASE_URL JWT_SECRET w st now req).2
        = <[fresh (dom st) :=
              mkEnvelope
                (linked_signers BASE_URL JWT_SECRET (fresh (dom st)) now
                   (fresh_signers now (body_name req) (parseRecipients (body_emails req))))
                SENT fl EmptyString EmptyString
                (first_link
                   (linked_signers BASE_URL JWT_SECRET (fresh (dom st)) now
                      (fresh_signers now (body_name req)
                         (parseRecipients (body_emails req)))))]> st
      ∧ ((generate_template BASE_URL JWT_SECRET w st now req).1
           = json 200
               (CreatedBody (fresh (dom st))
                  (first_link
                     (linked_signers BASE_URL JWT_SECRET (fresh (dom st)) now
                        (fresh_signers now (body_name req)
                           (parseRecipients (body_emails req)))))
                  SENT (map (λ f, (filename f, publicUrl f, mimetype f)) fl)
                  (map report_of
                     (linked_signers BASE_URL JWT_SECRET (fresh (dom st)) now
                        (fresh_signers now (body_name req)
                           (parseRecipients (body_emails req))))))
         ∨ (generate_template BASE_URL JWT_SECRET w st now req).1 = generation_failed)
      ∧ (code (generate_template BASE_URL JWT_SECRET w st now req).1 = 200 ↔
         forallb (λ s, sent (notify w (body_name req) s))
           (linked_signers BASE_URL JWT_SECRET (fresh (dom st)) now
              (fresh_signers now (body_name req) (parseRecipients (body_emails req))))
         = true)).
Proof.
  unfold generate_template, stores_envelope.
  destruct (selected_templates (body_templates req)) as [[|t ts]|]; [by left..| |by left].
  destruct (parseRecipients (body_emails req)) as [|r rs] eqn:Hrs; [by left|].
  destruct (generate_files BASE_URL w 0 (t :: ts)) as [[|f fl]|]; [by left| |by left].
  destruct (create_ok w); [|by left].
  destruct (save_ok w).
  - right; right. exists (f :: fl). split; [done|]. split; [done|]. split; [done|].
    split; [done|].
    fold (fresh_signers now (body_name req) (r :: rs)).
    fold (linked_signers BASE_URL JWT_SECRET (fresh (dom st)) now
            (fresh_signers now (body_name req) (r :: rs))).
    unfold first_link. destruct (forallb _ _); cbn; split; try done; split; auto; split; done.
  - right; left. exists (f :: fl). by repeat split.
Qed.

Lemma fresh_signers_lookup now nm rs i s :
  fresh_signers now nm rs !! i = Some s →
  ∃ r, rs !! i = Some r ∧ s = new_signer now nm r.
Proof.
  unfold fresh_signers. change (map ?f ?l) with (f <$> l).
  rewrite list_lookup_fmap. destruct (rs !! i) as [r|]; [|done].
  intros [= <-]. by exists r.
Qed.

Lemma linked_signers_lookup id now sg i s :
  linked_signers BASE_URL JWT_SECRET id now sg !! i = Some s →
  ∃ s0, sg !! i = Some s0
    ∧ s = with_link s0 (SignLink BASE_URL (mint JWT_SECRET id (email s0) i now)).
Proof.
  unfold linked_signers. rewrite list_lookup_imap.
  destruct (sg !! i) as [s0|]; [|done]. intros [= <-]. by exists s0.
Qed.

Lemma linked_signers_emails id now sg :
  email <$> linked_signers BASE_URL JWT_SECRET id now sg = email <$> sg.
Proof.
  apply list_eq. intros i. rewrite !list_lookup_fmap.
  unfold linked_signers. rewrite list_lookup_imap. by destruct (sg !! i).
Qed.

Lemma fresh_signers_emails now nm rs :
  email <$> fresh_signers now nm rs = rcp_email <$> rs.
Proof.
  unfold fresh_signers. change (map ?f ?l) with (f <$> l).
  rewrite <- list_fmap_compose. by apply list_fmap_ext.
Qed.

Lemma fresh_signers_well_formed now nm rs fl :
  rs ≠ [] →
  well_formed (mkEnvelope (fresh_signers now nm rs) SENT fl EmptyString EmptyString NoLink)
  = true.
Proof.
  intros Hne. destruct rs as [|r rs]; [done|]. unfold well_formed. cbn.
  clear. induction rs as [|x rs IH]; [done|]. exact IH.
Qed.

Lemma linked_signers_well_formed id now nm rs fl lk :
  rs ≠ [] →
  well_formed
    (mkEnvelope (linked_signers BASE_URL JWT_SECRET id now (fresh_signers now nm rs))
       SENT fl EmptyString EmptyString lk) = true.
Proof.
  intros Hne. unfold well_formed. cbn [signers documentStatus].
  assert (∀ i s, linked_signers BASE_URL JWT_SECRET id now (fresh_signers now nm rs) !! i
                 = Some s → stamped s = true ∧ is_completed s = false) as Hall.
  { intros i s (s0 & (r & _ & ->)%fresh_signers_lookup & ->)%linked_signers_lookup.
    done. }
  destruct (linked_signers BASE_URL JWT_SECRET id now (fresh_signers now nm rs))
    as [|s l] eqn:Hl.
  { destruct rs; [done|discriminate Hl]. }
  cbn [andb]. assert (forallb stamped (s :: l) = true) as ->.
  { apply forallb_Forall, Forall_lookup. intros i x Hx. by apply (Hall i x). }
  cbn [forallb]. destruct (Hall 0 s eq_refl) as [_ ->]. done.
Qed.

(** X7.  Whatever a creation request is and however it ends, the
    envelopes stored before are kept as they were, and an envelope that was
    not there before is stored under the first free id and is well-formed:
    it is [SENT], it has one [SENT] signer per parsed recipient, in order,
    and no two of its signers share an email. *)
Theorem X7_creation_adds_well_formed w st now req :
  (∀ id env, st !! id = Some env →
     (generate_template BASE_URL JWT_SECRET w st now req).2 !! id = Some env)
  ∧ (∀ id env,
       (generate_template BASE_URL JWT_SECRET w st now req).2 !! id = Some env →
       st !! id = None →
       id = fresh (dom st)
       ∧ well_formed env = true
       ∧ documentStatus env = SENT
       ∧ Forall (λ s, status s = SENT) (signers env)
       ∧ email <$> signers env = rcp_email <$> parseRecipients (body_emails req)
       ∧ NoDup (email <$> signers env)).
Proof.
  pose proof (fresh_id_free st) as Hfree.
  assert (NoDup (rcp_email <$> parseRecipients (body_emails req))) as Hnodup.
  { rewrite parseRecipients_first_occurrences. apply first_occurrences_NoDup. }
  destruct (generate_template_cases w st now req)
    as [(-> & _)|[(fl & Hfl & Hrs & _ & _ & ->)|(fl & Hfl & Hrs & _ & _ & -> & _)]]; cbn [snd].
  - split; [done|]. intros id env H1 H2. congruence.
  - split.
    { intros id env Henv. rewrite lookup_insert_ne; [done|]. intros <-. congruence. }
    intros id env Hnew Hold.
    destruct (decide (fresh (dom st) = id)) as [<-|Hne];
      [|rewrite lookup_insert_ne in Hnew by done; congruence].
    rewrite lookup_insert_eq in Hnew. injection Hnew as <-.
    split; [done|]. split; [by apply fresh_signers_well_formed|]. split; [done|].
    cbn [signers]. rewrite fresh_signers_emails. split; [|done].
    apply Forall_lookup. by intros i s (r & _ & ->)%fresh_signers_lookup.
  - split.
    { intros id env Henv. rewrite lookup_insert_ne; [done|]. intros <-. congruence. }
    intros id env Hnew Hold.
    destruct (decide (fresh (dom st) = id)) as [<-|Hne];
      [|rewrite lookup_insert_ne in Hnew by done; congruence].
    rewrite lookup_insert_eq in Hnew. injection Hnew as <-.
    split; [done|]. split; [by apply linked_signers_well_formed|]. split; [done|].
    cbn [signers]. rewrite linked_signers_emails, fresh_signers_emails. split; [|done].
    apply Forall_lookup.
    by intros i s (s0 & (r & _ & ->)%fresh_signers_lookup & ->)%linked_signers_lookup.
Qed.

End Created.

(** ** From a created envelope to its signers *)

Section Links.

Variables BASE_URL JWT_SECRET : string.

Implicit Types (st : Store) (env : Envelope) (s : Signer) (w : World) (a : Auth).

Lemma findIndex_first {A} (p : A → bool) (xs : list A) k x :
  xs !! k = Some x → p x = true →
  (∀ j y, j < k → xs !! j = Some y → p y = false) →
  findIndex p xs = Z.of_nat k.
Proof.
  revert k. induction xs as [|y xs IH]; intros k Hx Hp Hbefore; [done|].
  destruct k as [|k]; cbn [findIndex].
  - injection Hx as ->. by rewrite Hp.
  - rewrite (Hbefore 0 y) by (done || lia).
    rewrite (IH k Hx Hp).
    + destruct (Z.of_nat k <? 0)%Z eqn:Hneg; [apply Z.ltb_lt in Hneg|]; lia.
    + intros j z Hj Hz. apply (Hbefore (S j) z); [lia|done].
Qed.

Lemma findIndex_none {A} (p : A → bool) (xs : list A) :
  (∀ x, x ∈ xs → p x = false) → findIndex p xs = (-1)%Z.
Proof.
  induction xs as [|y xs IH]; intros Hno; [done|]. cbn [findIndex].
  rewrite (Hno y) by apply list_elem_of_here.
  rewrite IH; [done|]. intros x Hx. apply Hno. by apply list_elem_of_further.
Qed.

(** X8.  A token without a numeric index is resolved by its email.  In an
    envelope whose signers have distinct emails, as every stored envelope
    has, the email of a signer resolves to that signer; an email that no
    signer has, or no email at all, resolves to none. *)
Theorem X8_email_resolves_its_signer env a :
  NoDup (email <$> signers env) →
  req_signerIndex a = None →
  (∀ i s, signers env !! i = Some s → req_signerEmail a = Some (email s) →
     signer_index a env = Z.of_nat i ∧ out_of_range (signer_index a env) env = false)
  ∧ ((∀ s, s ∈ signers env → req_signerEmail a ≠ Some (email s)) →
     signer_index a env = (-1)%Z ∧ out_of_range (signer_index a env) env = true).
Proof.
  intros Hnodup Hidx. unfold signer_index. rewrite Hidx. split.
  - intros i s Hs Hmail. rewrite Hmail.
    assert (findIndex (λ x, String.eqb (email x) (email s)) (signers env) = Z.of_nat i)
      as ->.
    { apply (findIndex_first _ _ i s Hs); [apply String.eqb_refl|].
      intros j y Hj Hy. apply String.eqb_neq. intros Heq.
      assert (j = i); [|lia].
      eapply NoDup_lookup; [exact Hnodup| |].
      - by rewrite list_lookup_fmap, Hy.
      - by rewrite list_lookup_fmap, Hs, Heq. }
    split; [done|]. unfold out_of_range.
    pose proof (lookup_lt_Some _ _ _ Hs).
    apply orb_false_iff. split; [apply Z.ltb_ge; lia|].
    rewrite Z.geb_leb. apply Z.leb_gt. lia.
  - intros Hno. rewrite findIndex_none; [done|].
    intros x Hx. destruct (req_signerEmail a) as [e|] eqn:He; [|done].
    apply String.eqb_neq. intros Heq. apply (Hno x Hx). by rewrite Heq.
Qed.

Lemma verifyJWT_mint id mail i now now' :
  verifyJWT JWT_SECRET (Some (Encoded (mint JWT_SECRET id mail i now))) now'
  = inr (mkAuth (Some id) (Some mail) (Some (Z.of_nat i))).
Proof.
  unfold verifyJWT, jwt_verify, mint, jwt_sign. cbn. by rewrite String.eqb_refl.
Qed.

(** X9.  When a creation answers 200, the response lists the envelope as
    stored, and each link of the stored envelope opens its own signer: a
    read with the token of signer [i], at any later time, answers 200 with
    the view of signer [i], now [DELIVERED] at the time of the read. *)
Theorem X9_created_link_opens_its_signer w st now req env i s now' :
  code (generate_template BASE_URL JWT_SECRET w st now req).1 = 200 →
  (generate_template BASE_URL JWT_SECRET w st now req).2 !! fresh (dom st) = Some env →
  signers env !! i = Some s →
  (generate_template BASE_URL JWT_SECRET w st now req).1
    = json 200
        (CreatedBody (fresh (dom st)) (signedUrl env) (documentStatus env)
           (map (λ f, (filename f, publicUrl f, mimetype f)) (files env))
           (map report_of (signers env)))
  ∧ ∃ t ds st',
      signerUrl s = SignLink BASE_URL t
      ∧ get_by_token JWT_SECRET (generate_template BASE_URL JWT_SECRET w st now req).2 now'
          (Some (Encoded t))
        = (json 200
             (ViewBody (fresh (dom st)) ds
                (mkSignerView (Z.of_nat i) (email s) (name s) DELIVERED (sentAt s)
                   (Some now') None)
                (map (λ f, (publicUrl f, mimetype f)) (files env))),
           st').
Proof.
  intros Hok Henv Hs.
  destruct (generate_template_cases BASE_URL JWT_SECRET w st now req)
    as [(_ & Hno & _)|[(fl & _ & _ & _ & _ & Hrun)|(fl & _ & _ & _ & _ & Hst & Hresp & _)]].
  - done.
  - by rewrite Hrun in Hok.
  - destruct Hresp as [Hresp|Hresp]; [|by rewrite Hresp in Hok].
    rewrite Hst in *. rewrite lookup_insert_eq in Henv. injection Henv as <-.
    cbn [signers files signedUrl documentStatus] in *. split; [exact Hresp|].
    destruct (linked_signers_lookup _ _ _ _ _ _ _ Hs) as (s0 & Hs0 & ->).
    destruct (fresh_signers_lookup _ _ _ _ _ Hs0) as (r & _ & ->).
    cbn [with_link new_signer email name status sentAt deliveredAt completedAt signerUrl].
    eexists _, _, _. split; [reflexivity|].
    unfold get_by_token. rewrite verifyJWT_mint. cbn [req_envId findById mbind option_bind].
    rewrite lookup_insert_eq. unfold signer_index. cbn [req_signerIndex].
    pose proof (lookup_lt_Some _ _ _ Hs) as Hlt.
    unfold out_of_range. cbn [signers].
    replace (Z.of_nat i <? 0)%Z with false by (symmetry; apply Z.ltb_ge; lia).
    replace (Z.of_nat i >=? _)%Z with false
      by (symmetry; rewrite Z.geb_leb; apply Z.leb_gt; lia).
    cbn [orb]. rewrite Nat2Z.id. unfold mark_delivered. cbn [signers]. rewrite Hs.
    cbn [with_link new_signer status]. rewrite bool_decide_eq_true_2 by done.
    cbn [signers]. rewrite list_lookup_insert_eq by done.
    cbn [view_of email name status sentAt deliveredAt completedAt files]. reflexivity.
Qed.

(** X10.  The links of an envelope whose creation answered 200 are
    pairwise distinct, every signer has one, and the envelope's own link is
    that of its first signer. *)
Theorem X10_created_links_distinct w st now req env :
  code (generate_template BASE_URL JWT_SECRET w st now req).1 = 200 →
  (generate_template BASE_URL JWT_SECRET w st now req).2 !! fresh (dom st) = Some env →
  NoDup (signerUrl <$> signers env)
  ∧ Forall (λ s, signerUrl s ≠ NoLink) (signers env)
  ∧ signedUrl env = first_link (signers env).
Proof.
  intros Hok Henv.
  destruct (generate_template_cases BASE_URL JWT_SECRET w st now req)
    as [(_ & Hno & _)|[(fl & _ & _ & _ & _ & Hrun)|(fl & _ & _ & _ & _ & Hst & _)]].
  - done.
  - by rewrite Hrun in Hok.
  - rewrite Hst, lookup_insert_eq in Henv. injection Henv as <-.
    cbn [signers signedUrl]. split; [|split; [|done]].
    + apply NoDup_alt. intros i j x. rewrite !list_lookup_fmap.
      destruct (linked_signers _ _ _ _ _ !! i) as [si|] eqn:Hi; [|done].
      destruct (linked_signers _ _ _ _ _ !! j) as [sj|] eqn:Hj; [|done].
      destruct (linked_signers_lookup _ _ _ _ _ _ _ Hi) as (s0 & _ & ->).
      destruct (linked_signers_lookup _ _ _ _ _ _ _ Hj) as (s1 & _ & ->).
      cbn. intros [= <-]. unfold mint, jwt_sign. intros [= _ Hij]. lia.
    + apply Forall_lookup. intros i s Hs.
      by destruct (linked_signers_lookup _ _ _ _ _ _ _ Hs) as (s0 & _ & ->).
Qed.

End Links.

(** ** Reads, uploads and how they compose *)

Section Compose.

Variables BASE_URL JWT_SECRET : string.

Implicit Types (st : Store) (env : Envelope) (s : Signer) (a : Auth).

Lemma in_range_of_lookup env idx s :
  signers env !! idx = Some s → out_of_range (Z.of_nat idx) env = false.
Proof.
  intros Hs%lookup_lt_Some. unfold out_of_range. apply orb_false_iff. split.
  - apply Z.ltb_ge. lia.
  - rewrite Z.geb_leb. apply Z.leb_gt. lia.
Qed.

(** X11.  A read with an accepted token whose signer resolves answers 200.
    A signer that is not [SENT] is shown as it is and nothing changes.  A
    signer that is [SENT] becomes [DELIVERED], stamped with the time of the
    read, and the envelope becomes [DELIVERED] exactly when every other
    signer is delivered or completed; otherwise the envelope status stays. *)
Theorem X11_read_marks_delivered st now token a id env idx s :
  verifyJWT JWT_SECRET token now = inr a →
  req_envId a = Some id →
  st !! id = Some env →
  signer_index a env = Z.of_nat idx →
  signers env !! idx = Some s →
  (status s ≠ SENT →
     get_by_token JWT_SECRET st now token
     = (json 200 (ViewBody id (documentStatus env) (view_of (Z.of_nat idx) s)
                    (map (λ f, (publicUrl f, mimetype f)) (files env))),
        <[id := env]> st)
     ∧ <[id := env]> st = st)
  ∧ (status s = SENT →
     ∃ env',
       get_by_token JWT_SECRET st now token
       = (json 200
            (ViewBody id (documentStatus env')
               (mkSignerView (Z.of_nat idx) (email s) (name s) DELIVERED (sentAt s)
                  (Some now) (completedAt s))
               (map (λ f, (publicUrl f, mimetype f)) (files env))),
          <[id := env']> st)
       ∧ signers env'
         = <[idx := mkSigner (email s) (name s) DELIVERED (sentAt s) (Some now)
                      (completedAt s) (signerUrl s)]> (signers env)
       ∧ ((∀ j x, j ≠ idx → signers env !! j = Some x →
             status x = DELIVERED ∨ status x = COMPLETED) →
          documentStatus env' = DELIVERED)
       ∧ (¬ (∀ j x, j ≠ idx → signers env !! j = Some x →
               status x = DELIVERED ∨ status x = COMPLETED) →
          documentStatus env' = documentStatus env)).
Proof.
  intros Hv Hid Henv Hidx Hs.
  pose proof (lookup_lt_Some _ _ _ Hs) as Hlt.
  assert (∀ env1, signers env1 !! idx = Some s ∨ True →
    get_by_token JWT_SECRET st now token
    = (let env' := mark_delivered now idx env in
       match signers env' !! idx with
       | Some s' =>
           (json 200 (ViewBody id (documentStatus env') (view_of (Z.of_nat idx) s')
                        (map (λ f, (publicUrl f, mimetype f)) (files env'))),
            <[id := env']> st)
       | None => (json 400 (ErrorBody "Signer not found in envelope"), st)
       end)) as Hrun.
  { intros _ _. unfold get_by_token. rewrite Hv, Hid.
    cbn [findById mbind option_bind]. rewrite Henv, Hidx.
    rewrite (in_range_of_lookup _ _ _ Hs). by rewrite Nat2Z.id. }
  specialize (Hrun env (or_intror I)). split.
  - intros Hns. rewrite Hrun. cbn zeta. unfold mark_delivered. rewrite Hs.
    rewrite bool_decide_eq_false_2 by done. rewrite Hs.
    split; [done|]. by apply insert_id.
  - intros Hsent. rewrite Hrun. cbn zeta. unfold mark_delivered. rewrite Hs.
    rewrite bool_decide_eq_true_2 by done. cbn [signers].
    rewrite list_lookup_insert_eq by done.
    set (s' := mkSigner _ _ DELIVERED _ _ _ _).
    eexists. split; [reflexivity|]. cbn [signers documentStatus].
    split; [done|].
    assert (forallb delivered_or_completed (<[idx := s']> (signers env)) = true ↔
            (∀ j x, j ≠ idx → signers env !! j = Some x →
               status x = DELIVERED ∨ status x = COMPLETED)) as Hiff.
    { rewrite forallb_Forall, Forall_lookup. split.
      - intros HF j x Hj Hx.
        specialize (HF j x). rewrite list_lookup_insert_ne in HF by done.
        specialize (HF Hx). unfold delivered_or_completed in HF.
        apply bool_decide_eq_true in HF. set_solver.
      - intros Hall j x. destruct (decide (j = idx)) as [->|Hne].
        + rewrite list_lookup_insert_eq by done. by intros [= <-].
        + rewrite list_lookup_insert_ne by done. intros Hx.
          unfold delivered_or_completed. apply bool_decide_eq_true.
          destruct (Hall j x Hne Hx) as [-> | ->]; set_solver. }
    split.
    + intros Hall. apply Hiff in Hall. by rewrite Hall.
    + intros Hnot. destruct (forallb _ _) eqn:HF; [|done].
      exfalso. apply Hnot. by apply Hiff.
Qed.

Lemma mark_delivered_no_sent now idx env :
  Forall (λ s, status s ≠ SENT) (signers env) → mark_delivered now idx env = env.
Proof.
  intros HF. unfold mark_delivered.
  destruct (signers env !! idx) as [s|] eqn:Hs; [|done].
  case_bool_decide as Hsent; [|done].
  by eapply Forall_lookup_1 in HF; [|exact Hs].
Qed.

(** X12.  A well-formed envelope that is [COMPLETED] is final for reads
    and uploads: after either, it is still [COMPLETED] with every signer
    [COMPLETED]; only a cancel changes it, to [VOIDED]. *)
Theorem X12_completed_until_cancelled st now r id env env' :
  st !! id = Some env →
  (handle BASE_URL JWT_SECRET st now r).2 !! id = Some env' →
  well_formed env = true →
  documentStatus env = COMPLETED →
  (documentStatus env' = COMPLETED ∧ Forall (λ s, status s = COMPLETED) (signers env'))
  ∨ (∃ t, r = PostCancel t ∧ documentStatus env' = VOIDED
       ∧ Forall (λ s, status s = VOIDED) (signers env')).
Proof.
  intros Henv Henv' Hwf Hdoc.
  assert (Forall (λ s, status s = COMPLETED) (signers env)) as Hall.
  { unfold well_formed in Hwf. rewrite Hdoc in Hwf.
    apply andb_true_iff in Hwf as [_ Hc]. apply forallb_Forall in Hc.
    eapply Forall_impl; [exact Hc|]. intros x Hx. unfold is_completed in Hx.
    by apply bool_decide_eq_true in Hx. }
  destruct (handle_cases _ _ _ _ _ _ _ _ Henv Henv')
    as [->|[(t & idx & -> & _ & ->)|[(t & fl & idx & -> & Hidx & ->)|(t & -> & ->)]]].
  - by left.
  - left. rewrite mark_delivered_no_sent; [done|].
    eapply Forall_impl; [exact Hall|]. intros x Hx. by rewrite Hx.
  - left.
    assert (Forall (λ s, status s = COMPLETED)
              (signers (mark_completed now (BASE_URL +:+ "/storage/signed/" +:+ fl) idx env)))
      as Hall'.
    { unfold mark_completed. destruct (signers env !! idx); [|done].
      cbn [signers]. by apply Forall_insert. }
    split; [|done]. by apply mark_completed_status.
  - right. exists t. split; [done|]. split; [done|]. cbn [mark_voided signers].
    apply Forall_forall. intros x. rewrite list_elem_of_In, in_map_iff.
    by intros (x0 & <- & _).
Qed.

Lemma forallb_insert_same {A} (p : A → bool) (xs : list A) i x y :
  p x = p y → forallb p (<[i := x]> xs) = forallb p (<[i := y]> xs).
Proof.
  intros Hp. revert i. induction xs as [|z xs IH]; intros i; [done|].
  destruct i as [|i]; cbn; [by rewrite Hp|]. by rewrite IH.
Qed.

Lemma mark_completed_twice now1 now2 url1 url2 idx env :
  mark_completed now2 url2 idx (mark_completed now1 url1 idx env)
  = mark_completed now2 url2 idx env.
Proof.
  unfold mark_completed at 2.
  destruct (signers env !! idx) as [s|] eqn:Hs; [|done].
  unfold mark_completed. cbn [signers]. rewrite Hs.
  rewrite list_lookup_insert_eq by (by eapply lookup_lt_Some). cbn.
  rewrite list_insert_insert_eq.
  rewrite (forallb_insert_same is_completed _ idx
             (mkSigner (email s) (name s) COMPLETED (sentAt s) (deliveredAt s)
                (Some now1) (signerUrl s))
             (mkSigner (email s) (name s) COMPLETED (sentAt s) (deliveredAt s)
                (Some now2) (signerUrl s))) by done.
  by destruct (forallb _ _).
Qed.

Lemma signer_index_completed a now url idx env :
  signer_index a (mark_completed now url idx env) = signer_index a env.
Proof.
  unfold signer_index. destruct (req_signerIndex a); [done|].
  rewrite (findIndex_fmap email
             (λ e, match req_signerEmail a with
                   | Some e' => String.eqb e e'
                   | None => false
                   end)).
  rewrite (mark_completed_keeps email) by done. by rewrite <- findIndex_fmap.
Qed.

(** X13.  A second upload replaces the first: when the token is accepted
    at the time of the second upload, two uploads with the same token give
    the response and the store of the second upload alone, whatever the
    first was. *)
Theorem X13_second_upload_replaces_first st now1 now2 token a upload1 stored2 :
  verifyJWT JWT_SECRET token now2 = inr a →
  complete BASE_URL JWT_SECRET
    (complete BASE_URL JWT_SECRET st now1 token upload1).2 now2 token (PdfFile stored2)
  = complete BASE_URL JWT_SECRET st now2 token (PdfFile stored2).
Proof.
  intros Hv2. unfold complete at 2.
  destruct (verifyJWT JWT_SECRET token now1) as [e|a1] eqn:Hv1; [done|].
  rewrite (verifyJWT_any_time _ _ _ _ _ _ Hv1 Hv2).
  destruct upload1 as [| |stored1]; [done..|].
  destruct (req_envId a) as [k|] eqn:Hk; cbn [findById mbind option_bind]; [|done].
  destruct (st !! k) as [env|] eqn:Henv; [|done].
  destruct (out_of_range (signer_index a env) env) eqn:Hrange; [done|].
  destruct (signers (mark_completed now1 _ _ env) !! _) as [s1|] eqn:Hs1; [|done].
  cbn [snd]. unfold complete. rewrite Hv2, Hk. cbn [findById mbind option_bind].
  rewrite lookup_insert_eq, Henv. rewrite signer_index_completed.
  unfold out_of_range in *. rewrite mark_completed_length, Hrange.
  rewrite mark_completed_twice. rewrite insert_insert_eq.
  destruct (signers (mark_completed now2 _ _ env) !! _) eqn:Hs2; [done|].
  apply lookup_ge_None in Hs2. apply lookup_lt_Some in Hs1.
  rewrite mark_completed_length in Hs1, Hs2. lia.
Qed.

(** X14.  The signing page is served exactly for the tokens the
    middleware of the API accepts at that time; every other token gets 401
    "Link expired". *)
Theorem X14_page_agrees_with_middleware (token : TokenText) (now : Z) :
  (sign_page JWT_SECRET token now = json 200 (PageBody "web/sign.html")
   ∧ ∃ a, verifyJWT JWT_SECRET (Some token) now = inr a)
  ∨ (sign_page JWT_SECRET token now = json 401 (TextBody "Link expired")
     ∧ verifyJWT JWT_SECRET (Some token) now = inl (json 401 (ErrorBody "Invalid token"))).
Proof.
  unfold sign_page, verifyJWT.
  destruct (jwt_verify token JWT_SECRET now); [by right|]. left. eauto.
Qed.

End Compose.

(** ** Templates and files of a creation *)

Section Files.

Variables BASE_URL JWT_SECRET : string.

Implicit Types (st : Store) (w : World).

(** X15.  A creation answers 200 exactly when the request got through
    template selection, recipient parsing, file generation and both store
    writes and every send succeeded; the envelope is then in the store under
    an id that was free.  When [Envelope.create] fails nothing is stored. *)
Theorem X15_created_iff w st now req :
  (code (generate_template BASE_URL JWT_SECRET w st now req).1 = 200 ↔
   stores_envelope BASE_URL w req = true
   ∧ forallb (λ s, sent (notify w (body_name req) s))
       (linked_signers BASE_URL JWT_SECRET (fresh (dom st)) now
          (fresh_signers now (body_name req) (parseRecipients (body_emails req))))
     = true)
  ∧ (code (generate_template BASE_URL JWT_SECRET w st now req).1 = 200 →
     st !! fresh (dom st) = None
     ∧ is_Some ((generate_template BASE_URL JWT_SECRET w st now req).2 !! fresh (dom st)))
  ∧ (create_ok w = false →
     (generate_template BASE_URL JWT_SECRET w st now req).2 = st).
Proof.
  destruct (generate_template_cases BASE_URL JWT_SECRET w st now req)
    as [(Hst & Hno & Hse)|[(fl & _ & _ & Hc & Hse & Hrun)
                          |(fl & _ & _ & Hc & Hse & Hst & _ & Hiff)]].
  - split; [|split; [done|done]]. split; [done|]. intros [? _]. congruence.
  - rewrite Hrun. cbn [fst snd code generation_failed json]. split; [|split; [done|]].
    + split; [done|]. intros [? _]. congruence.
    + intros ?. congruence.
  - split; [|split].
    + rewrite Hiff. split; [by auto|]. by intros [_ ?].
    + intros _. split; [apply fresh_id_free|]. rewrite Hst, lookup_insert_eq. by eexists.
    + intros ?. congruence.
Qed.

(** X16.  The files of a creation are those of the selected templates that
    exist, one per such template and in their order: the names of the files
    are, in order, what writing each existing template gave, the template at
    place [i] of the selection being written as number [k + i]; a selected
    template without a file is skipped.  Each file is stored under its name,
    is served from [/storage/originals/] under the base URL, and is of type
    [text/html].  The loop throws exactly when an item cannot be printed or
    writing an existing template throws. *)
Theorem X16_files_of_existing_templates w k (selected : list JSON) :
  (∀ fl, generate_files BASE_URL w k selected = Some fl →
     ∃ names,
       all_of (map toString selected) = Some names
       ∧ Some <$> (filename <$> fl)
         = (λ it, tpl_write w it.1 it.2)
             <$> filter (λ it, tpl_exists w it.2 = true) (imap (λ i t, (k + i, t)) names)
       ∧ Forall (λ f, storedName f = filename f
                      ∧ mimetype f = "text/html"
                      ∧ publicUrl f = BASE_URL +:+ "/storage/originals/" +:+ filename f) fl)
  ∧ (generate_files BASE_URL w k selected = None ↔
     ∃ i item, selected !! i = Some item
       ∧ (toString item = None
          ∨ ∃ t, toString item = Some t ∧ tpl_exists w t = true
               ∧ tpl_write w (k + i) t = None)).
Proof.
  revert k. induction selected as [|item r IH]; intros k.
  - split.
    + intros fl [= <-]. by exists [].
    + split; [done|]. by intros (i & x & ? & _).
  - destruct (IH (S k)) as [IHfiles IHnone]. cbn [generate_files map all_of].
    assert (∀ names : list string,
              imap ((λ i t, (k + i, t)) ∘ S) names = imap (λ i t, (S k + i, t)) names)
      as Hshift.
    { intros names. apply imap_ext. intros i x _. cbn. f_equal. lia. }
    destruct (toString item) as [t|] eqn:Hitem.
    2:{ split; [done|]. split; [|done]. intros _. exists 0, item. by split; [|left]. }
    assert ((∃ i x, r !! i = Some x
               ∧ (toString x = None
                  ∨ ∃ t', toString x = Some t' ∧ tpl_exists w t' = true
                       ∧ tpl_write w (S k + i) t' = None)) →
            ∃ i x, (item :: r) !! i = Some x
               ∧ (toString x = None
                  ∨ ∃ t', toString x = Some t' ∧ tpl_exists w t' = true
                       ∧ tpl_write w (k + i) t' = None)) as Hlater.
    { intros (i & x & Hi & Hx). exists (S i), x. split; [done|].
      by replace (k + S i) with (S k + i) by lia. }
    destruct (tpl_exists w t) eqn:Hex.
    + destruct (tpl_write w k t) as [fileName|] eqn:Hw.
      * destruct (generate_files BASE_URL w (S k) r) as [fl0|] eqn:Hrest; cbn.
        -- split.
           ++ intros fl [= <-].
              destruct (IHfiles fl0 eq_refl) as (names & -> & Hnames & HF).
              exists (t :: names). split; [done|]. split.
              ** cbn [imap]. rewrite Nat.add_0_r.
                 rewrite filter_cons_True by done.
                 rewrite !fmap_cons. cbn [fst snd pushed_file filename].
                 rewrite Hw. f_equal. rewrite Hshift. exact Hnames.
              ** by constructor.
           ++ split; [done|]. intros (i & x & Hi & Hx).
              destruct i as [|i].
              ** injection Hi as <-. rewrite Nat.add_0_r in Hx.
                 destruct Hx as [?|(t' & ? & ? & ?)]; congruence.
              ** cbn in Hi. assert (Some fl0 = None); [|done].
                 apply IHnone. exists i, x. by replace (S k + i) with (k + S i) by lia.
        -- split; [done|]. split; [|done]. intros _.
           apply Hlater. by apply IHnone.
      * split; [done|]. split; [|done]. intros _. exists 0, item.
        split; [done|]. right. exists t. by rewrite Nat.add_0_r.
    + split.
      * intros fl Hfl. destruct (IHfiles fl Hfl) as (names & -> & Hnames & HF).
        exists (t :: names). split; [done|]. split; [|done].
        cbn [imap]. rewrite filter_cons_False by (cbn; congruence).
        rewrite Hshift. exact Hnames.
      * rewrite IHnone. split; [exact Hlater|].
        intros (i & x & Hi & Hx). destruct i as [|i].
        -- injection Hi as <-. destruct Hx as [?|(t' & ? & ? & ?)]; congruence.
        -- exists i, x. by replace (S k + i) with (k + S i) by lia.
Qed.

Lemma string_forall_rev_app (p : ascii → bool) (a b : string) :
  JS.string_forall p (String.rev_app a b) = JS.string_forall p a && JS.string_forall p b.
Proof.
  revert b. induction a as [|c a IH]; intros b; [done|].
  cbn [String.rev_app]. rewrite IH. cbn. by destruct (p c), (JS.string_forall p a).
Qed.

(** No piece of a split holds a separator. *)
Lemma split_pieces (sep : ascii → bool) (s : string) :
  Forall (λ p, JS.string_forall (λ c, negb (sep c)) p = true) (JS.split sep s).
Proof.
  unfold JS.split.
  assert (∀ cur b, JS.string_forall (λ c, negb (sep c)) cur = true →
            Forall (λ p, JS.string_forall (λ c, negb (sep c)) p = true)
              (JS.split_go sep cur b s)) as Hgo; [|by apply Hgo].
  induction s as [|c s IH]; intros cur b Hcur; cbn [JS.split_go].
  - constructor; [|constructor]. unfold String.rev.
    by rewrite string_forall_rev_app, Hcur.
  - destruct (sep c) eqn:Hc.
    + destruct b; [by apply IH|]. constructor; [|by apply IH].
      unfold String.rev. by rewrite string_forall_rev_app, Hcur.
    + apply IH. cbn. by rewrite Hc.
Qed.

Lemma nonempty_rev_app (a b : string) :
  JS.nonempty b = true → JS.nonempty (String.rev_app a b) = true.
Proof. revert b. induction a as [|c a IH]; intros b Hb; [done|]. cbn. by apply IH. Qed.

(** A text is its separators and names in turn; the names are not empty and
    hold no separator, what stands between them holds nothing else and is
    not empty but before the first name and after the last. *)
Lemma names_and_gaps_spec (sep : ascii → bool) (s : string) :
  s = weave (names_and_gaps sep s).1 (names_and_gaps sep s).2
  ∧ JS.string_forall sep (names_and_gaps sep s).1 = true
  ∧ Forall (λ p, JS.nonempty p.1 = true
                 ∧ JS.string_forall (λ c, negb (sep c)) p.1 = true
                 ∧ JS.string_forall sep p.2 = true) (names_and_gaps sep s).2
  ∧ (∀ i p, (names_and_gaps sep s).2 !! i = Some p →
       S i < length (names_and_gaps sep s).2 → JS.nonempty p.2 = true).
Proof.
  induction s as [|c r IH].
  { cbn. repeat split; done. }
  cbn [names_and_gaps]. destruct (names_and_gaps sep r) as [gap rest].
  cbn [fst snd] in IH. destruct IH as (Hr & Hgap & Hall & Hin).
  destruct (sep c) eqn:Hc; cbn [fst snd].
  - repeat split; try done.
    + rewrite Hr at 1. by destruct rest as [|[nm g] rest].
    + cbn. by rewrite Hc.
  - destruct gap as [|d gap].
    + destruct rest as [|[nm g] rest]; cbn [fst snd].
      * subst r. repeat split; try done.
        -- repeat constructor; cbn; by rewrite ?Hc.
        -- intros [|i] p; cbn; [lia|done].
      * apply Forall_cons in Hall as [(Hne & Hnm & Hg) Hall]. cbn [fst snd] in *.
        repeat split.
        -- by rewrite Hr.
        -- constructor; [|done]. cbn [fst snd]. repeat split; [|done].
           cbn. by rewrite Hc.
        -- intros [|i] p Hp Hlen.
           ++ injection Hp as <-. by apply (Hin 0 (nm, g)).
           ++ by apply (Hin (S i) p).
    + cbn [fst snd]. repeat split.
      * rewrite Hr at 1. done.
      * constructor; [|done]. cbn [fst snd]. repeat split; [|done].
        cbn. by rewrite Hc.
      * intros [|i] p Hp Hlen.
        -- by injection Hp as <-.
        -- apply (Hin i p); [done|]. cbn in Hlen. lia.
Qed.

(** The pieces of a split that are not empty are the names of the text. *)
Lemma split_go_names (sep : ascii → bool) (s : string) (cur : string) (b : bool) :
  (b = true → cur = EmptyString) →
  filter (λ x, JS.nonempty x = true) (JS.split_go sep cur b s)
  = match names_and_gaps sep s with
    | (EmptyString, (nm, g) :: rest) => String.rev_app cur nm :: rest.*1
    | (_, rest) => filter (λ x, JS.nonempty x = true) [String.rev cur] ++ rest.*1
    end.
Proof.
  revert cur b. induction s as [|c r IH]; intros cur b Hb.
  - cbn. by rewrite app_nil_r.
  - cbn [JS.split_go names_and_gaps]. destruct (sep c) eqn:Hc.
    + assert (filter (λ x, JS.nonempty x = true) (JS.split_go sep EmptyString true r)
              = (names_and_gaps sep r).2.*1) as Hrest.
      { rewrite IH by done. destruct (names_and_gaps sep r) as [[|d gap] [|[nm g] rest]];
          cbn [fst snd]; try done. }
      destruct (names_and_gaps sep r) as [gap rest]. cbn [fst snd] in Hrest.
      destruct b.
      * rewrite Hrest, (Hb eq_refl). done.
      * change (String.rev cur :: ?l) with ([String.rev cur] ++ l).
        rewrite filter_app, Hrest. done.
    + rewrite IH by done. destruct (names_and_gaps sep r) as [[|d gap] [|[nm g] rest]].
      all: try done.
      all: rewrite filter_cons_True; [done|].
      all: unfold String.rev; cbn; by apply nonempty_rev_app.
Qed.

Lemma plain_templates_names (s : string) :
  plain_templates s = (names_and_gaps template_sep s).2.*1.
Proof.
  unfold plain_templates.
  assert (map JS.trim (JS.split template_sep s) = JS.split template_sep s) as ->.
  { pose proof (split_pieces template_sep s) as HF.
    induction HF as [|p l Hp _ IH]; [done|]. cbn [map]. rewrite IH. f_equal.
    apply trim_no_space. eapply string_forall_impl; [|exact Hp].
    intros c. unfold template_sep. by destruct (Ascii.eqb c ","), (JS.is_space c). }
  unfold JS.split. rewrite split_go_names by done.
  by destruct (names_and_gaps template_sep s) as [[|d gap] [|[nm g] rest]].
Qed.

(** X17.  The templates selected by a field that is not JSON are exactly
    the names of the field: the field is separators (commas and white
    space) and names in turn, each name is not empty and holds no separator,
    what stands between two names is separators only and is not empty, and
    the selection is the names in order. *)
Theorem X17_plain_template_names (s : string) :
  ∃ gap rest,
    s = weave gap rest
    ∧ selected_templates (PlainText s) = Some (map JString rest.*1)
    ∧ JS.string_forall template_sep gap = true
    ∧ Forall (λ p, JS.nonempty p.1 = true
                   ∧ JS.string_forall (λ c, negb (template_sep c)) p.1 = true
                   ∧ JS.string_forall template_sep p.2 = true) rest
    ∧ (∀ i p, rest !! i = Some p → S i < length rest → JS.nonempty p.2 = true).
Proof.
  exists (names_and_gaps template_sep s).1, (names_and_gaps template_sep s).2.
  destruct (names_and_gaps_spec template_sep s) as (Hs & Hgap & Hall & Hin).
  split; [exact Hs|]. split; [|done].
  cbn [selected_templates]. by rewrite plain_templates_names.
Qed.

End Files.

(** ** More on the recipient parser *)

Section ParserMore.

Implicit Types (s pre mid : string) (c : ascii) (r : Recipient).

(** X19.  The reading of an entry as [Name <email>]: when the pattern
    matches, the entry is the first group, [<], the second group and [>],
    the first group has no line terminator, the second is not empty and has
    no [>], and no other such reading has a longer first group; when it does
    not match, the entry has no such reading at all. *)
Theorem X19_name_email_reading s :
  (∀ pre mid, match_angle s = Some (pre, mid) →
     s = pre +:+ "<" +:+ mid +:+ ">"
     ∧ JS.string_forall (λ c, negb (JS.is_line_terminator c)) pre = true
     ∧ JS.nonempty mid = true
     ∧ JS.string_forall (λ c, negb (Ascii.eqb c ">")) mid = true
     ∧ ∀ pre' mid',
         s = pre' +:+ "<" +:+ mid' +:+ ">" →
         JS.string_forall (λ c, negb (JS.is_line_terminator c)) pre' = true →
         JS.nonempty mid' = true →
         JS.string_forall (λ c, negb (Ascii.eqb c ">")) mid' = true →
         String.length pre' ≤ String.length pre)
  ∧ (match_angle s = None →
     ∀ pre mid,
       s = pre +:+ "<" +:+ mid +:+ ">" →
       JS.string_forall (λ c, negb (JS.is_line_terminator c)) pre = true →
       JS.nonempty mid = true →
       JS.string_forall (λ c, negb (Ascii.eqb c ">")) mid = true → False).
Proof.
  split.
  - intros pre mid Hm. destruct (match_angle_sound _ _ _ Hm) as (Heq & Hpre & Hne & Hmid).
    repeat split; try done.
    intros pre' mid' Heq' Hpre' Hne' Hmid'.
    destruct (match_angle_complete pre' mid' Hpre' Hne' Hmid') as (p & m & Hm' & Hlen).
    rewrite <- Heq', Hm in Hm'. by injection Hm' as <- <-.
  - intros Hnone pre mid Heq Hpre Hne Hmid.
    destruct (match_angle_complete pre mid Hpre Hne Hmid) as (p & m & Hm' & _).
    rewrite <- Heq, Hnone in Hm'. done.
Qed.

Lemma length_omap_le {A B} (f : A → option B) (l : list A) :
  length (omap f l) ≤ length l.
Proof.
  induction l as [|x l IH]; [done|]. cbn [omap list_omap].
  destruct (f x); cbn [length]; lia.
Qed.

Lemma first_occurrences_length (l : list Recipient) :
  length (Spec.first_occurrences l) ≤ length l.
Proof.
  induction l as [|x l IH]; [done|]. cbn [Spec.first_occurrences length].
  pose proof (length_filter (λ y, rcp_email y ≠ rcp_email x) (Spec.first_occurrences l)).
  lia.
Qed.

Lemma filter_all_in {A} (P : A → Prop) `{!∀ x, Decision (P x)} (xs : list A) :
  (∀ x, x ∈ xs → P x) → filter P xs = xs.
Proof.
  induction xs as [|x xs IH]; intros HP; [done|].
  rewrite filter_cons_True by (apply HP, list_elem_of_here).
  rewrite IH; [done|]. intros y Hy. by apply HP, list_elem_of_further.
Qed.

(** X20.  For every input whatsoever the recipients returned are read from
    entries of the input, at most one per entry; their emails match the
    email pattern, are in lower case and trimmed, and are pairwise distinct;
    and a JSON value that is not an array gives no recipient. *)
Theorem X20_parser_output_is_clean (input : FieldText) :
  NoDup (rcp_email <$> parseRecipients input)
  ∧ Forall (λ r, emailRegex_test (rcp_email r) = true
                 ∧ JS.toLowerCase (rcp_email r) = rcp_email r
                 ∧ JS.trim (rcp_email r) = rcp_email r
                 ∧ ∃ raw, raw ∈ recipient_list input ∧ read_entry raw = Some r)
      (parseRecipients input)
  ∧ length (parseRecipients input) ≤ length (recipient_list input)
  ∧ (∀ text v, input = JsonText text v → (∀ items, v ≠ JArray items) →
       parseRecipients input = []).
Proof.
  rewrite parseRecipients_first_occurrences.
  split; [apply first_occurrences_NoDup|]. split; [|split].
  - apply Forall_forall. intros r Hr%first_occurrences_sub.
    destruct (read_entries_valid _ _ Hr) as (H1 & H2 & H3).
    repeat split; try done.
    unfold read_entries in Hr. apply list_elem_of_omap in Hr as (raw & ? & ?). eauto.
  - etrans; [apply first_occurrences_length|]. apply length_omap_le.
  - intros text v -> Hv. unfold read_entries. cbn. destruct v; try done.
    by destruct (Hv items).
Qed.

Lemma lower_char_keeps c :
  JS.is_line_terminator (JS.lower_char c) = JS.is_line_terminator c
  ∧ Ascii.eqb (JS.lower_char c) "<" = Ascii.eqb c "<"
  ∧ Ascii.eqb (JS.lower_char c) ">" = Ascii.eqb c ">".
Proof. by destruct c as [[] [] [] [] [] [] [] []]. Qed.

Lemma until_close_lower s :
  until_close (JS.toLowerCase s) = JS.toLowerCase <$> until_close s.
Proof.
  induction s as [|c s IH]; [done|]. cbn [JS.toLowerCase until_close].
  destruct (lower_char_keeps c) as (_ & _ & ->).
  destruct (Ascii.eqb c ">"); [by destruct s|].
  rewrite IH. by destruct (until_close s).
Qed.

Lemma match_angle_lower s :
  match_angle s = None → match_angle (JS.toLowerCase s) = None.
Proof.
  induction s as [|c s IH]; [done|]. cbn [JS.toLowerCase match_angle].
  destruct (lower_char_keeps c) as (-> & -> & _).
  destruct (JS.is_line_terminator c).
  - destruct (Ascii.eqb c "<"); [|done]. unfold angle_tail.
    rewrite until_close_lower. destruct (until_close s) as [[|]|]; done.
  - destruct (match_angle s) as [[p m]|]; [done|]. rewrite IH by done. cbn.
    destruct (Ascii.eqb c "<"); [|done]. unfold angle_tail.
    rewrite until_close_lower. destruct (until_close s) as [[|]|]; done.
Qed.

Lemma until_close_no_close s :
  JS.string_forall (λ c, negb (Ascii.eqb c ">")) s = true → until_close s = None.
Proof.
  induction s as [|c s IH]; [done|]. cbn.
  intros [Hc Hs]%andb_true_iff. apply negb_true_iff in Hc. by rewrite Hc, IH.
Qed.

Lemma match_angle_no_close s :
  JS.string_forall (λ c, negb (Ascii.eqb c ">")) s = true → match_angle s = None.
Proof.
  induction s as [|c s IH]; [done|]. cbn [JS.string_forall match_angle].
  intros [Hc Hs]%andb_true_iff. rewrite IH by done.
  unfold angle_tail. rewrite until_close_no_close by done.
  by destruct (JS.is_line_terminator c), (Ascii.eqb c "<").
Qed.

Lemma trimStart_forall (p : ascii → bool) s :
  JS.string_forall p s = true → JS.string_forall p (JS.trimStart s) = true.
Proof.
  induction s as [|c s IH]; [done|]. cbn [JS.trimStart].
  destruct (JS.is_space c); [|done]. cbn. intros [_ ?]%andb_true_iff. auto.
Qed.

Lemma trimEnd_forall (p : ascii → bool) s :
  JS.string_forall p s = true → JS.string_forall p (JS.trimEnd s) = true.
Proof.
  induction s as [|c s IH]; [done|]. cbn [JS.string_forall JS.trimEnd].
  intros [Hc Hs]%andb_true_iff. specialize (IH Hs).
  destruct (JS.trimEnd s).
  - destruct (JS.is_space c); [done|]. cbn. by rewrite Hc.
  - change (JS.string_forall p (String c (String a s0)))
      with (p c && JS.string_forall p (String a s0)). by rewrite Hc, IH.
Qed.

Lemma toLowerCase_no_close s :
  JS.string_forall (λ c, negb (Ascii.eqb c ">")) s = true →
  JS.string_forall (λ c, negb (Ascii.eqb c ">")) (JS.toLowerCase s) = true.
Proof.
  induction s as [|c s IH]; [done|]. cbn.
  destruct (lower_char_keeps c) as (_ & _ & ->).
  intros [-> Hs]%andb_true_iff. by rewrite IH.
Qed.

(** The email of a recipient has itself no [Name <email>] reading. *)
Lemma read_entry_email_plain raw r :
  read_entry raw = Some r → match_angle (rcp_email r) = None.
Proof.
  unfold read_entry. destruct (JS.nonempty (JS.trim raw)); [|done].
  destruct (match_angle (JS.trim raw)) as [[pre mid]|] eqn:Hm.
  - destruct (emailRegex_test _); [|done]. intros [= <-]. cbn.
    apply match_angle_no_close, toLowerCase_no_close.
    unfold JS.trim. apply trimEnd_forall, trimStart_forall.
    by destruct (match_angle_sound _ _ _ Hm) as (_ & _ & _ & ?).
  - destruct (emailRegex_test _); [|done]. intros [= <-]. cbn.
    by apply match_angle_lower.
Qed.

Lemma emailRegex_nonempty s : emailRegex_test s = true → JS.nonempty s = true.
Proof. by destruct s. Qed.

(** An email of the output, given back as an entry, is read as itself. *)
Lemma read_entry_again raw r :
  read_entry raw = Some r →
  read_entry (rcp_email r) = Some (mkRecipient (rcp_email r) EmptyString).
Proof.
  intros Hr. pose proof (read_entry_email_plain _ _ Hr) as Hplain.
  destruct (read_entry_Some _ _ Hr) as [Hok [x He]].
  assert (JS.trim (rcp_email r) = rcp_email r) as Htrim
    by by apply trim_no_space, emailRegex_no_space.
  assert (JS.toLowerCase (rcp_email r) = rcp_email r) as Hlow.
  { rewrite He. apply toLowerCase_idemp. }
  unfold read_entry. rewrite Htrim, (emailRegex_nonempty _ Hok), Hplain, Hlow, Hok. done.
Qed.

Lemma first_occurrences_NoDup_id (rs : list Recipient) :
  NoDup (rcp_email <$> rs) → Spec.first_occurrences rs = rs.
Proof.
  induction rs as [|x rs IH]; [done|]. rewrite fmap_cons.
  intros [Hx Hrs]%NoDup_cons. cbn [Spec.first_occurrences]. rewrite IH by done.
  f_equal. apply filter_all_in. intros y Hy Heq. apply Hx.
  rewrite <- Heq. apply list_elem_of_fmap. eauto.
Qed.

End ParserMore.

Section ParserAgain.

(** X21.  The parser is idempotent on its own output: the emails it
    returned, given back as a JSON array of strings, are returned again, the
    same emails in the same order (the names are not part of such an
    input). *)
Theorem X21_parser_idempotent (input : FieldText) (text : string) :
  parseRecipients
    (JsonText text (JArray (map (λ r, JString (rcp_email r)) (parseRecipients input))))
  = map (λ r, mkRecipient (rcp_email r) EmptyString) (parseRecipients input).
Proof.
  pose proof (first_occurrences_NoDup (read_entries input)) as Hnodup.
  assert (∀ r, r ∈ parseRecipients input → ∃ raw, read_entry raw = Some r) as Hfrom.
  { intros r. rewrite parseRecipients_first_occurrences.
    intros Hr%first_occurrences_sub. unfold read_entries in Hr.
    apply list_elem_of_omap in Hr as (raw & _ & ?). eauto. }
  rewrite <- parseRecipients_first_occurrences in Hnodup.
  rewrite (parseRecipients_first_occurrences (JsonText _ _)).
  unfold read_entries. cbn [recipient_list].
  change (map (λ r, JString (rcp_email r)) (parseRecipients input))
    with ((λ r, JString (rcp_email r)) <$> parseRecipients input).
  rewrite (list_fmap_compose rcp_email JString).
  change (JString <$> ?l) with (map JString l).
  rewrite array_entries_strings, read_nonempty.
  revert Hnodup Hfrom. generalize (parseRecipients input). intros out Hnodup Hfrom.
  assert (omap read_entry (rcp_email <$> out)
          = map (λ r, mkRecipient (rcp_email r) EmptyString) out) as ->.
  { induction out as [|r out IH]; [done|]. cbn [fmap list_fmap map omap list_omap].
    destruct (Hfrom r) as [raw Hraw]; [apply list_elem_of_here|].
    rewrite (read_entry_again _ _ Hraw). f_equal. apply IH.
    - rewrite fmap_cons in Hnodup. by apply NoDup_cons in Hnodup as [_ ?].
    - intros x Hx. apply Hfrom. by apply list_elem_of_further. }
  apply first_occurrences_NoDup_id.
  change (map ?f ?l) with (f <$> l). rewrite <- list_fmap_compose.
  erewrite list_fmap_ext; [exact Hnodup|]. by intros _ r _.
Qed.

Lemma all_of_None {A} (l : list (option A)) : None ∈ l → all_of l = None.
Proof.
  induction l as [|[x|] l IH]; [by intros ?%elem_of_nil| |done].
  intros [?|Hin]%elem_of_cons; [done|]. cbn. by rewrite IH.
Qed.

(** X25.  The callback of the array runs inside the [try] of the parser.
    When it throws, which it does on an object with a truthy email whose
    name or email cannot be printed, the parser does what it does for text
    that is not JSON: it reads the text of the field as a delimited list,
    whatever the other items of the array are. *)
Theorem X25_unprintable_item_falls_back (text : string) (items : list JSON)
    (fields : list (string * JSON)) (e : JSON) :
  JObject fields ∈ items →
  get "email" fields = Some e →
  truthy e = true →
  toString e = None ∨ or_empty (get "name" fields) = None →
  recipient_list (JsonText text (JArray items)) = JS.split recipient_sep text
  ∧ parseRecipients (JsonText text (JArray items)) = parseRecipients (PlainText text).
Proof.
  intros Hin He Ht Hthrow.
  assert (recipient_list (JsonText text (JArray items)) = JS.split recipient_sep text)
    as Hlist.
  { cbn [recipient_list]. unfold array_entries. rewrite all_of_None; [done|].
    apply list_elem_of_fmap. exists (JObject fields). split; [|done].
    cbn [entry_of]. rewrite He, Ht.
    destruct Hthrow as [-> | ->]; [by destruct (or_empty _)|done]. }
  split; [exact Hlist|]. unfold parseRecipients. by rewrite Hlist.
Qed.

End ParserAgain.

(** ** The single-signer variant *)

Section LegacyServer.

Variables BASE_URL JWT_SECRET : string.


(** X23.  In the single-signer variant an upload is refused with 404 when
    the token names no stored envelope, also without a file; for a stored
    envelope an upload without a file answers 500 "Upload failed" and
    changes nothing, and an upload of a PDF makes the envelope [COMPLETED]
    and records the upload whatever the status was, [VOIDED] included,
    keeping the recipient and the files. *)
Theorem X23_legacy_upload (st : Legacy.Store) (now : Z) (token : option TokenText)
    (id : nat) :
  Legacy.verifyJWT JWT_SECRET token now = inr (Some id) →
  (st !! id = None →
     ∀ stored,
       Legacy.complete BASE_URL JWT_SECRET st now token NoFile
         = (Legacy.json 404 (Legacy.ErrorBody "Envelope not found"), st)
       ∧ Legacy.complete BASE_URL JWT_SECRET st now token (PdfFile stored)
         = (Legacy.json 404 (Legacy.ErrorBody "Envelope not found"), st))
  ∧ (∀ env, st !! id = Some env →
       Legacy.complete BASE_URL JWT_SECRET st now token NoFile
         = (Legacy.json 500 (Legacy.ErrorBody "Upload failed"), st)
       ∧ ∀ stored,
           Legacy.complete BASE_URL JWT_SECRET st now token (PdfFile stored)
           = (Legacy.json 200
                (Legacy.DownloadBody (BASE_URL +:+ "/storage/signed/" +:+ stored)),
              <[id := Legacy.mkEnvelope (Legacy.recipientEmail env)
                        (Legacy.recipientName env) COMPLETED (Legacy.files env)
                        (Some (stored, BASE_URL +:+ "/storage/signed/" +:+ stored))]> st)).
Proof.
  intros Hv. unfold Legacy.complete. rewrite Hv. cbn [mbind option_bind]. split.
  - intros ->. done.
  - intros env ->. done.
Qed.

End LegacyServer.

(** ** Tokens of the older format *)

Section OlderTokens.

Variables BASE_URL JWT_SECRET : string.

(** X24.  The middleware accepts a token of the older format, which
    carries only [_id].  With such a token no signer resolves, so a read and
    an upload for a stored envelope are refused with 400 and change nothing,
    but a cancel voids the envelope and all its signers. *)
Theorem X24_older_token_only_cancels (st : Store) (now : Z) (t : JWT) (id : nat)
    (env : Envelope) :
  jwt_payload t = mkPayload None (Some id) None None →
  verifyJWT JWT_SECRET (Some (Encoded t)) now ≠ inl (json 401 (ErrorBody "Invalid token")) →
  st !! id = Some env →
  get_by_token JWT_SECRET st now (Some (Encoded t))
    = (json 400 (ErrorBody "Signer not found in envelope"), st)
  ∧ (∀ stored, complete BASE_URL JWT_SECRET st now (Some (Encoded t)) (PdfFile stored)
       = (json 400 (ErrorBody "Signer not found in envelope"), st))
  ∧ cancel JWT_SECRET st now (Some (Encoded t))
    = (json 200 (CancelledBody id), <[id := mark_voided env]> st).
Proof.
  intros Hp Hok Henv.
  assert (verifyJWT JWT_SECRET (Some (Encoded t)) now = inr (mkAuth (Some id) None None))
    as Hv.
  { revert Hok. unfold verifyJWT. destruct (jwt_verify _ _ _) as [e|d] eqn:Hd; [done|].
    intros _. revert Hd. unfold jwt_verify. destruct (String.eqb _ _); [|done].
    destruct (jwt_exp t); [destruct (_ >=? _)%Z; [done|]|]; intros [= <-]; by rewrite Hp. }
  assert (out_of_range (signer_index (mkAuth (Some id) None None) env) env = true) as Hout.
  { unfold signer_index. cbn [req_signerIndex req_signerEmail].
    rewrite findIndex_none; done. }
  unfold get_by_token, complete, cancel. rewrite Hv.
  cbn [req_envId findById mbind option_bind]. by rewrite Henv, Hout.
Qed.

End OlderTokens.

(** ** The further theorems at the scenario *)

Section MoreInstances.

Import Scenario Cases.

Lemma X2_unknown_envelope_read :
  handle base secret created 6000%Z (GetByToken unknown_envelope)
  = (json 404 (ErrorBody "Envelope not found"), created).
Proof.
  apply (X2_unknown_envelope base secret created 6000%Z (GetByToken unknown_envelope)
           (mkAuth (Some 7) (Some "a@x.com") (Some 0%Z))).
  - vm_compute. reflexivity.
  - vm_compute. reflexivity.
  - intros t f Hr. discriminate Hr.
Defined.

Lemma X3_index_nine_of_two :
  get_by_token secret created 6000%Z index_out_of_range
    = (json 400 (ErrorBody "Signer not found in envelope"), created)
  ∧ statuses (cancel secret created 6000%Z index_out_of_range).2 = [VOIDED; VOIDED].
Proof.
  assert (verifyJWT secret index_out_of_range 6000%Z
          = inr (mkAuth (Some 0) (Some "a@x.com") (Some 9%Z))) as Hv
    by (vm_compute; reflexivity).
  assert (created !! 0 = Some (stored created)) as Henv by (vm_compute; reflexivity).
  destruct (X3_unresolved_signer base secret created 6000%Z index_out_of_range _ 0 _
              Hv eq_refl Henv) as (Hread & _ & Hcancel).
  - vm_compute. reflexivity.
  - split; [exact Hread|]. rewrite Hcancel. vm_compute. reflexivity.
Defined.

Lemma X5_after_upload_same_signers :
  email <$> signers (stored (after [b_signs])) = email <$> signers (stored created)
  ∧ signerUrl <$> signers (stored (after [b_signs])) = signerUrl <$> signers (stored created)
  ∧ files (stored (after [b_signs])) = files (stored created).
Proof.
  assert (created !! 0 = Some (stored created)) as Henv by (vm_compute; reflexivity).
  assert ((handle base secret created 7500%Z (snd b_signs)).2 !! 0
          = Some (stored (after [b_signs]))) as Henv' by (vm_compute; reflexivity).
  destruct (X5_signers_stay base secret _ _ _ _ _ _ Henv Henv')
    as (He & _ & Hl & Hf & _).
  exact (conj He (conj Hl Hf)).
Defined.

Lemma X6_scenario_stays_well_formed :
  well_formed (stored created) = true
  ∧ ∃ env', after [a_opens; b_signs; a_cancels; a_signs; b_signs] !! 0 = Some env'
      ∧ well_formed env' = true.
Proof.
  split; [vm_compute; reflexivity|].
  apply (X6_run_keeps_well_formed base secret created _ 0 (stored created));
    vm_compute; reflexivity.
Defined.

Lemma X8_email_of_second_signer :
  signer_index by_email (stored created) = 1%Z
  ∧ out_of_range (signer_index by_email (stored created)) (stored created) = false.
Proof.
  assert (NoDup (email <$> signers (stored created))) as Hnodup.
  { vm_compute. repeat constructor; set_solver. }
  destruct (X8_email_resolves_its_signer (stored created) by_email Hnodup eq_refl)
    as [Hfound _].
  apply (Hfound 1 (signer_at created 1)); vm_compute; reflexivity.
Defined.

Lemma X9_second_link_opens_second_signer :
  ∃ t ds st',
    signerUrl (signer_at created 1) = SignLink base t
    ∧ get_by_token secret created 6500%Z (Some (Encoded t))
      = (json 200
           (ViewBody 0 ds
              (mkSignerView 1 "b@x.com" "" DELIVERED (Some 5000%Z) (Some 6500%Z) None)
              (map (λ f, (publicUrl f, mimetype f)) (files (stored created)))),
         st').
Proof.
  assert (code (generate_template base secret world ∅ 5000%Z request).1 = 200) as Hok
    by (vm_compute; reflexivity).
  assert ((generate_template base secret world ∅ 5000%Z request).2 !! fresh (dom (∅ : Store))
          = Some (stored created)) as Henv by (vm_compute; reflexivity).
  assert (signers (stored created) !! 1 = Some (signer_at created 1)) as Hs
    by (vm_compute; reflexivity).
  destruct (X9_created_link_opens_its_signer base secret world ∅ 5000%Z request _ 1 _
              6500%Z Hok Henv Hs) as (_ & t & ds & st' & Hlink & Hread).
  exists t, ds, st'. split; [exact Hlink|]. exact Hread.
Defined.

Lemma X10_two_distinct_links :
  NoDup (signerUrl <$> signers (stored created))
  ∧ signedUrl (stored created) = signerUrl (signer_at created 0).
Proof.
  assert (code (generate_template base secret world ∅ 5000%Z request).1 = 200) as Hok
    by (vm_compute; reflexivity).
  assert ((generate_template base secret world ∅ 5000%Z request).2 !! fresh (dom (∅ : Store))
          = Some (stored created)) as Henv by (vm_compute; reflexivity).
  destruct (X10_created_links_distinct base secret world ∅ 5000%Z request _ Hok Henv)
    as (Hnodup & _ & Hfirst).
  split; [exact Hnodup|]. rewrite Hfirst. vm_compute. reflexivity.
Defined.

Lemma X11_last_read_delivers_envelope :
  statuses (after [a_opens]) = [DELIVERED; SENT]
  ∧ ∃ env',
      (get_by_token secret (after [a_opens]) 6500%Z (link 1 "b@x.com")).2
      = <[0 := env']> (after [a_opens])
      ∧ documentStatus env' = DELIVERED.
Proof.
  split; [vm_compute; reflexivity|].
  assert (verifyJWT secret (link 1 "b@x.com") 6500%Z
          = inr (mkAuth (Some 0) (Some "b@x.com") (Some 1%Z))) as Hv
    by (vm_compute; reflexivity).
  assert (after [a_opens] !! 0 = Some (stored (after [a_opens]))) as Henv
    by (vm_compute; reflexivity).
  assert (signers (stored (after [a_opens])) !! 1 = Some (signer_at (after [a_opens]) 1))
    as Hs by (vm_compute; reflexivity).
  destruct (X11_read_marks_delivered secret _ _ _ _ 0 _ 1 _ Hv eq_refl Henv eq_refl Hs)
    as [_ Hsent].
  destruct Hsent as (env' & Hrun & _ & Hall & _); [vm_compute; reflexivity|].
  exists env'. split; [by rewrite Hrun|]. apply Hall.
  intros [|[|j]] x Hj; [|done|]; vm_compute; intros [= <-]; by left.
Defined.

Lemma X12_completed_then_read :
  documentStatus (stored (after [a_signs; b_signs])) = COMPLETED
  ∧ (documentStatus (stored (after [a_signs; b_signs; a_opens])) = COMPLETED
     ∧ Forall (λ s, status s = COMPLETED)
         (signers (stored (after [a_signs; b_signs; a_opens])))
     ∨ ∃ t, snd a_opens = PostCancel t
         ∧ documentStatus (stored (after [a_signs; b_signs; a_opens])) = VOIDED
         ∧ Forall (λ s, status s = VOIDED)
             (signers (stored (after [a_signs; b_signs; a_opens])))).
Proof.
  split; [vm_compute; reflexivity|].
  apply (X12_completed_until_cancelled base secret (after [a_signs; b_signs]) 6000%Z
           (snd a_opens) 0 (stored (after [a_signs; b_signs])));
    vm_compute; reflexivity.
Defined.

Lemma X13_two_uploads_of_a :
  complete base secret (after [a_signs]) 9000%Z (link 0 "a@x.com")
    (PdfFile "9000-400000.pdf")
  = complete base secret created 9000%Z (link 0 "a@x.com") (PdfFile "9000-400000.pdf").
Proof.
  apply (X13_second_upload_replaces_first base secret created 7000%Z 9000%Z
           (link 0 "a@x.com") (mkAuth (Some 0) (Some "a@x.com") (Some 0%Z))
           (PdfFile "7000-200000.pdf") "9000-400000.pdf").
  vm_compute. reflexivity.
Defined.

Lemma X25_object_email_with_toString :
  recipient_list unprintable_email
    = [ "[{" +:+ Scenario.quoted "email" +:+ ":{" +:+ Scenario.quoted "toString" +:+ ":1}}";
        Scenario.quoted "a@x.com" +:+ "]" ]
  ∧ parseRecipients unprintable_email
    = [mkRecipient (Scenario.quoted "a@x.com" +:+ "]") ""].
Proof.
  destruct (X25_unprintable_item_falls_back
              ("[{" +:+ Scenario.quoted "email" +:+ ":{" +:+ Scenario.quoted "toString"
                 +:+ ":1}}," +:+ Scenario.quoted "a@x.com" +:+ "]")
              [JObject [("email", JObject [("toString", JNumber "1")])]; JString "a@x.com"]
              [("email", JObject [("toString", JNumber "1")])]
              (JObject [("toString", JNumber "1")]))
    as [Hlist Hparse].
  - apply list_elem_of_here.
  - reflexivity.
  - reflexivity.
  - by left.
  - split.
    + unfold unprintable_email. rewrite Hlist. vm_compute. reflexivity.
    + unfold unprintable_email. rewrite Hparse. vm_compute. reflexivity.
Defined.

Lemma X23_legacy_upload_to_cancelled :
  Legacy.complete base secret legacy_store 6000%Z (Some (Encoded older_format)) NoFile
    = (Legacy.json 500 (Legacy.ErrorBody "Upload failed"), legacy_store)
  ∧ Legacy.documentStatus
      (default (Legacy.mkEnvelope "" "" PENDING [] None)
         ((Legacy.complete base secret legacy_store 6000%Z (Some (Encoded older_format))
             (PdfFile "6000-500000.pdf")).2 !! 0))
    = COMPLETED.
Proof.
  assert (Legacy.verifyJWT secret (Some (Encoded older_format)) 6000%Z = inr (Some 0))
    as Hv by (vm_compute; reflexivity).
  destruct (X23_legacy_upload base secret legacy_store 6000%Z _ 0 Hv) as [_ Hstored].
  destruct (Hstored (Legacy.mkEnvelope "demo@user.com" "Ann" VOIDED [] None))
    as [Hnofile Hpdf]; [vm_compute; reflexivity|].
  split; [exact Hnofile|]. rewrite Hpdf. cbn [snd]. by rewrite lookup_insert_eq.
Defined.

Lemma X24_older_token_on_scenario :
  get_by_token secret created 6000%Z (Some (Encoded older_format))
    = (json 400 (ErrorBody "Signer not found in envelope"), created)
  ∧ statuses (cancel secret created 6000%Z (Some (Encoded older_format))).2
    = [VOIDED; VOIDED].
Proof.
  assert (created !! 0 = Some (stored created)) as Henv by (vm_compute; reflexivity).
  destruct (X24_older_token_only_cancels base secret created 6000%Z older_format 0
              (stored created) eq_refl) as (Hread & _ & Hcancel);
    [by vm_compute|exact Henv|].
  split; [exact Hread|]. rewrite Hcancel. vm_compute. reflexivity.
Defined.

End MoreInstances.
